(** * RMariaDB: the prepared-statement result controller (src/MariaResult.cpp)

    A shallow embedding of [MariaResult] and of the part of the MariaDB
    Connector/C statement API it drives.  The C++ object and the connection
    it points to are one [world] value that every method threads through an
    exception monad: a method either returns a value and a new world, or
    throws and leaves the world as the statements executed so far made it. *)

From Stdlib Require Import String ZArith List Bool Lia.
Import ListNotations.
Open Scope list_scope.
Open Scope Z_scope.

(** ** Machine integers *)

Definition INT_MIN : Z := - 2 ^ 31.
Definition INT_MAX : Z := 2 ^ 31 - 1.

(** R's missing integer. *)
Definition NA_INTEGER : Z := INT_MIN.

(** Arithmetic on [uint64_t] (the row counters, [my_ulonglong]). *)
Definition u64 (x : Z) : Z := x mod 2 ^ 64.

(** [static_cast<int>] of an integer value: reduction into the 32-bit
    two's-complement range. Also the result of [int] arithmetic. *)
Definition static_cast_int (x : Z) : Z := (x + 2 ^ 31) mod 2 ^ 32 - 2 ^ 31.

Arguments u64 : simpl never.
Arguments static_cast_int : simpl never.

(** Return codes of [mysql_stmt_fetch] (mysql.h). *)
Definition MYSQL_NO_DATA : Z := 100.
Definition MYSQL_DATA_TRUNCATED : Z := 101.

(** ** What the server answers *)

(** One field of the result metadata ([MYSQL_FIELD]): only the members
    [cache_metadata] reads. *)
Record MYSQL_FIELD : Type := mkField {
  field_name : string;
  field_type : Z;
  field_charsetnr : Z
}.

Section Model.

(** Cell values, the server-side database and the logical column types
    ([MariaFieldType], declared in a header) stay abstract. *)
Context {value db MariaFieldType : Type}.

(** What one call of [mysql_stmt_fetch] finds next in the result set; the
    end of the list is [MYSQL_NO_DATA]. *)
Inductive fetch_outcome : Type :=
| FetchRow (row : list value)
| FetchTruncated (row : list value)
| FetchError (msg : string) (code : Z).

Inductive prepare_outcome : Type :=
| PrepareError (msg : string) (code : Z)
| PrepareOk (param_count : Z) (metadata : option (list MYSQL_FIELD)).

Inductive exec_outcome : Type :=
| ExecError (msg : string) (code : Z)
| ExecOk (affected : Z) (result : list fetch_outcome).

(** The server: a deterministic function of its database state. An
    execution answers with the affected-row count and with the whole
    result set, as the calls of [mysql_stmt_fetch] will find it. *)
Record server : Type := mkServer {
  server_stmt_init : db -> bool;
  server_prepare : db -> string -> prepare_outcome;
  server_execute : db -> string -> list value -> exec_outcome * db
}.

(** ** The client library's statement handle ([MYSQL_STMT]) *)

Record MYSQL_STMT : Type := mkStmt {
  stmt_sql : string;
  stmt_param_count : Z;
  stmt_metadata : option (list MYSQL_FIELD);
  stmt_bind : list value;
  stmt_result : list fetch_outcome;
  stmt_affected : Z;
  stmt_error : string;
  stmt_errno : Z
}.

Definition stmt_fresh : MYSQL_STMT :=
  mkStmt EmptyString 0 None [] [] 0 EmptyString 0.

Definition stmt_set_error (msg : string) (code : Z) (s : MYSQL_STMT) : MYSQL_STMT :=
  match s with
  | mkStmt sql n md b rs a _ _ => mkStmt sql n md b rs a msg code
  end.

Definition stmt_set_prepared (sql : string) (n : Z)
    (md : option (list MYSQL_FIELD)) (s : MYSQL_STMT) : MYSQL_STMT :=
  match s with
  | mkStmt _ _ _ b rs a msg code => mkStmt sql n md b rs a msg code
  end.

Definition stmt_set_bind (row : list value) (s : MYSQL_STMT) : MYSQL_STMT :=
  match s with
  | mkStmt sql n md _ rs a msg code => mkStmt sql n md row rs a msg code
  end.

Definition stmt_set_result (rs : list fetch_outcome) (s : MYSQL_STMT) : MYSQL_STMT :=
  match s with
  | mkStmt sql n md b _ a msg code => mkStmt sql n md b rs a msg code
  end.

Definition stmt_set_executed (a : Z) (rs : list fetch_outcome)
    (s : MYSQL_STMT) : MYSQL_STMT :=
  match s with
  | mkStmt sql n md b _ _ msg code => mkStmt sql n md b rs a msg code
  end.

(** ** Input and output binders *)

(** Modelled from the spec: the Input Binder ([MariaBinding], not among the
    sources) holds a read view of the parameter table, row-major, and a
    cursor, the index of the next row to bind. *)
Record MariaBinding : Type := mkBinding {
  binding_params : list (list value);
  binding_i : nat
}.

(** Modelled from the spec: the Output Binder ([MariaRow], not among the
    sources) holds one buffer per output column, overwritten by every
    fetch, and the column types it was set up with. *)
Record MariaRow : Type := mkRow {
  row_types : list MariaFieldType;
  row_buffers : list value
}.

(** ** The result table *)

(** Modelled from the spec: the Columnar Materializer ([df_create],
    [df_resize], [df_s3], not among the sources) keeps one vector per column,
    all of the allocated length; a cell not yet written is [None]. *)
Record data_frame : Type := mkDf {
  df_names : list string;
  df_types : list MariaFieldType;
  df_nrow : Z;
  df_cols : list (list (option value));
  df_classed : bool
}.

(** ** The result object and its world *)

(** The members of [MariaResult]. [self_] stands for the address of the
    object and [None] for a NULL pointer; the statement handle and the
    metadata are kept where the pointers point. The row counters are
    unsigned 64-bit integers, [nCols_] and [nParams_] are [int]s. *)
Record MariaResult : Type := mkResult {
  self_ : nat;
  pStatement_ : option MYSQL_STMT;
  pSpec_ : option (list MYSQL_FIELD);
  rowsAffected_ : Z;
  rowsFetched_ : Z;
  nCols_ : Z;
  nParams_ : Z;
  bound_ : bool;
  complete_ : bool;
  types_ : list MariaFieldType;
  names_ : list string;
  bindingInput_ : MariaBinding;
  bindingOutput_ : MariaRow
}.

(** Modelled from the spec: the connection ([MariaConnection], not among
    the sources) owns the link to the server and remembers at most one
    current result, compared by identity. *)
Record MariaConnection : Type := mkConn {
  conn_server : server;
  conn_db : db;
  conn_current_result : option nat
}.

(** Calls that leave the process, most recent first. *)
Inductive event : Type :=
| EvStmtInit
| EvPrepare (sql : string)
| EvBindParam (row : list value)
| EvExecute (sql : string) (row : list value)
| EvStoreResult
| EvFetch (rc : Z)
| EvFreeResult
| EvStmtClose
| EvAutocommit
| EvWarning (msg : string)
| EvCheckInterrupt.

Record world : Type := mkWorld {
  this : MariaResult;
  conn : MariaConnection;
  trace : list event;
  interrupt_pending : bool
}.

(** ** Exceptions *)

Inductive error : Type :=
| Stop (msg : string)                       (* stop("...") *)
| ProtocolError (msg : string) (code : Z)   (* stop("%s [%i]", msg, code) *)
| Interrupted                               (* raised by checkUserInterrupt() *)
| NullHandle.                               (* a NULL statement handle is used *)

(** How a call ends: it returns, it throws, or a loop of the model ran
    out of the fuel it was given (which [bind_total], [step_total] and
    [fetch_total] exclude). *)
Inductive outcome (A : Type) : Type :=
| Ok (a : A) (w : world)
| Throw (e : error) (w : world)
| OutOfFuel.

Arguments Ok {A} a w.
Arguments Throw {A} e w.
Arguments OutOfFuel {A}.

Definition M (A : Type) : Type := world -> outcome A.

Definition ret {A} (a : A) : M A := fun w => Ok a w.

Definition throw {A} (e : error) : M A := fun w => Throw e w.

Definition mbind {A B} (c : M A) (k : A -> M B) : M B :=
  fun w => match c w with
           | Ok a w' => k a w'
           | Throw e w' => Throw e w'
           | OutOfFuel => OutOfFuel
           end.

Notation "x <- c ;; k" := (mbind c (fun x => k))
  (at level 100, c at next level, right associativity).
Notation "c ;;; k" := (mbind c (fun _ => k))
  (at level 100, right associativity).

Definition get_this : M MariaResult := fun w => Ok (this w) w.

Definition update_this (f : MariaResult -> MariaResult) : M unit :=
  fun w => match w with
           | mkWorld r c tr ip => Ok tt (mkWorld (f r) c tr ip)
           end.

Definition get_conn : M MariaConnection := fun w => Ok (conn w) w.

Definition update_conn (f : MariaConnection -> MariaConnection) : M unit :=
  fun w => match w with
           | mkWorld r c tr ip => Ok tt (mkWorld r (f c) tr ip)
           end.

Definition emit (e : event) : M unit :=
  fun w => match w with
           | mkWorld r c tr ip => Ok tt (mkWorld r c (e :: tr) ip)
           end.

(** Field assignments of the result object. *)

Definition set_pStatement (v : option MYSQL_STMT) (r : MariaResult) : MariaResult :=
  match r with
  | mkResult id _ sp ra rf nc np b c ty nm bi bo =>
      mkResult id v sp ra rf nc np b c ty nm bi bo
  end.

Definition set_pSpec (v : option (list MYSQL_FIELD)) (r : MariaResult) : MariaResult :=
  match r with
  | mkResult id st _ ra rf nc np b c ty nm bi bo =>
      mkResult id st v ra rf nc np b c ty nm bi bo
  end.

Definition set_rowsAffected (v : Z) (r : MariaResult) : MariaResult :=
  match r with
  | mkResult id st sp _ rf nc np b c ty nm bi bo =>
      mkResult id st sp v rf nc np b c ty nm bi bo
  end.

Definition set_rowsFetched (v : Z) (r : MariaResult) : MariaResult :=
  match r with
  | mkResult id st sp ra _ nc np b c ty nm bi bo =>
      mkResult id st sp ra v nc np b c ty nm bi bo
  end.

Definition set_nCols (v : Z) (r : MariaResult) : MariaResult :=
  match r with
  | mkResult id st sp ra rf _ np b c ty nm bi bo =>
      mkResult id st sp ra rf v np b c ty nm bi bo
  end.

Definition set_nParams (v : Z) (r : MariaResult) : MariaResult :=
  match r with
  | mkResult id st sp ra rf nc _ b c ty nm bi bo =>
      mkResult id st sp ra rf nc v b c ty nm bi bo
  end.

Definition set_bound (v : bool) (r : MariaResult) : MariaResult :=
  match r with
  | mkResult id st sp ra rf nc np _ c ty nm bi bo =>
      mkResult id st sp ra rf nc np v c ty nm bi bo
  end.

Definition set_complete (v : bool) (r : MariaResult) : MariaResult :=
  match r with
  | mkResult id st sp ra rf nc np b _ ty nm bi bo =>
      mkResult id st sp ra rf nc np b v ty nm bi bo
  end.

Definition set_types (v : list MariaFieldType) (r : MariaResult) : MariaResult :=
  match r with
  | mkResult id st sp ra rf nc np b c _ nm bi bo =>
      mkResult id st sp ra rf nc np b c v nm bi bo
  end.

Definition set_names (v : list string) (r : MariaResult) : MariaResult :=
  match r with
  | mkResult id st sp ra rf nc np b c ty _ bi bo =>
      mkResult id st sp ra rf nc np b c ty v bi bo
  end.

Definition set_bindingInput (v : MariaBinding) (r : MariaResult) : MariaResult :=
  match r with
  | mkResult id st sp ra rf nc np b c ty nm _ bo =>
      mkResult id st sp ra rf nc np b c ty nm v bo
  end.

Definition set_bindingOutput (v : MariaRow) (r : MariaResult) : MariaResult :=
  match r with
  | mkResult id st sp ra rf nc np b c ty nm bi _ =>
      mkResult id st sp ra rf nc np b c ty nm bi v
  end.

Definition set_conn_db (d : db) (c : MariaConnection) : MariaConnection :=
  match c with
  | mkConn srv _ cur => mkConn srv d cur
  end.

Definition set_current_result (p : option nat) (c : MariaConnection) : MariaConnection :=
  match c with
  | mkConn srv d _ => mkConn srv d p
  end.


(** ** Connector/C calls, as the statement handle and the server see them *)

Definition get_stmt : M MYSQL_STMT :=
  fun w => match pStatement_ (this w) with
           | Some s => Ok s w
           | None => Throw NullHandle w
           end.

Definition put_stmt (s : MYSQL_STMT) : M unit :=
  update_this (set_pStatement (Some s)).

(** [mysql_stmt_init]: NULL when the client is out of memory. *)
Definition mysql_stmt_init : M (option MYSQL_STMT) :=
  c <- get_conn ;;
  emit EvStmtInit ;;;
  ret (if server_stmt_init (conn_server c) (conn_db c)
       then Some stmt_fresh else None).

Definition mysql_stmt_prepare (sql : string) : M Z :=
  s <- get_stmt ;;
  c <- get_conn ;;
  emit (EvPrepare sql) ;;;
  match server_prepare (conn_server c) (conn_db c) sql with
  | PrepareError msg code => put_stmt (stmt_set_error msg code s) ;;; ret 1
  | PrepareOk n md => put_stmt (stmt_set_prepared sql n md s) ;;; ret 0
  end.

Definition mysql_stmt_param_count : M Z :=
  s <- get_stmt ;; ret (stmt_param_count s).

Definition mysql_stmt_result_metadata : M (option (list MYSQL_FIELD)) :=
  s <- get_stmt ;; ret (stmt_metadata s).

Definition mysql_stmt_execute : M Z :=
  s <- get_stmt ;;
  c <- get_conn ;;
  emit (EvExecute (stmt_sql s) (stmt_bind s)) ;;;
  match server_execute (conn_server c) (conn_db c) (stmt_sql s) (stmt_bind s) with
  | (ExecError msg code, d) =>
      update_conn (set_conn_db d) ;;;
      put_stmt (stmt_set_error msg code s) ;;;
      ret 1
  | (ExecOk a rs, d) =>
      update_conn (set_conn_db d) ;;;
      put_stmt (stmt_set_executed a rs s) ;;;
      ret 0
  end.

Definition mysql_stmt_store_result : M unit :=
  _ <- get_stmt ;; emit EvStoreResult.

Definition mysql_stmt_affected_rows : M Z :=
  s <- get_stmt ;; ret (u64 (stmt_affected s)).

Definition set_row_buffers (row : list value) (r : MariaResult) : MariaResult :=
  set_bindingOutput (mkRow (row_types (bindingOutput_ r)) row) r.

(** [mysql_stmt_fetch] moves the next row into the bound output buffers and
    returns one of its four documented codes: 0, 1 (error),
    [MYSQL_NO_DATA], [MYSQL_DATA_TRUNCATED]. *)
Definition mysql_stmt_fetch : M Z :=
  s <- get_stmt ;;
  match stmt_result s with
  | [] => emit (EvFetch MYSQL_NO_DATA) ;;; ret MYSQL_NO_DATA
  | FetchRow row :: rs =>
      emit (EvFetch 0) ;;;
      put_stmt (stmt_set_result rs s) ;;;
      update_this (set_row_buffers row) ;;;
      ret 0
  | FetchTruncated row :: rs =>
      emit (EvFetch MYSQL_DATA_TRUNCATED) ;;;
      put_stmt (stmt_set_result rs s) ;;;
      update_this (set_row_buffers row) ;;;
      ret MYSQL_DATA_TRUNCATED
  | FetchError msg code :: rs =>
      emit (EvFetch 1) ;;;
      put_stmt (stmt_set_error msg code (stmt_set_result rs s)) ;;;
      ret 1
  end.

Definition mysql_free_result : M unit := emit EvFreeResult.

Definition mysql_stmt_close : M unit := emit EvStmtClose.

(** ** The connection, as the result object uses it *)

(** Modelled from the spec: [MariaConnection::autocommit] asks the
    connection to restore its default autocommit mode. *)
Definition autocommit : M unit := emit EvAutocommit.

(** Modelled from the spec: [MariaConnection::is_current_result] compares
    the connection's current result with the given one, by identity. *)
Definition is_current_result (self : nat) : M bool :=
  c <- get_conn ;;
  ret (match conn_current_result c with
       | Some p => Nat.eqb p self
       | None => false
       end).

(** ** R's side: warnings and interrupts *)

Definition warning (msg : string) : M unit := emit (EvWarning msg).

(** [checkUserInterrupt()] throws when the user has asked R to stop. *)
Definition checkUserInterrupt : M unit :=
  emit EvCheckInterrupt ;;;
  fun w => if interrupt_pending w then Throw Interrupted w else Ok tt w.

(** ** The binders *)

(** Modelled from the spec: [setup] only remembers the statement. *)
Definition bindingInput_setup : M unit := ret tt.

(** Modelled from the spec: [init_binding] takes the read view of the
    parameter table and puts the cursor on its first row. *)
Definition init_binding (params : list (list value)) : M unit :=
  update_this (set_bindingInput (mkBinding params 0)).

(** Modelled from the spec: [bind_next_row] returns false when the cursor is
    at or past the last row; otherwise it binds the row under the cursor to
    the statement, advances the cursor and returns true. *)
Definition bind_next_row : M bool :=
  r <- get_this ;;
  let b := bindingInput_ r in
  match nth_error (binding_params b) (binding_i b) with
  | None => ret false
  | Some row =>
      s <- get_stmt ;;
      emit (EvBindParam row) ;;;
      put_stmt (stmt_set_bind row s) ;;;
      update_this (set_bindingInput (mkBinding (binding_params b) (S (binding_i b)))) ;;;
      ret true
  end.

(** Modelled from the spec: the Output Binder's [setup] allocates the
    buffers for the given column types. *)
Definition bindingOutput_setup (types : list MariaFieldType) : M unit :=
  _ <- get_stmt ;;
  update_this (set_bindingOutput (mkRow types [])).

Fixpoint update_nth {A} (l : list A) (i : nat) (v : A) : list A :=
  match l, i with
  | [], _ => []
  | _ :: t, O => v :: t
  | h :: t, S i' => h :: update_nth t i' v
  end.

(** Modelled from the spec: [set_list_value] copies the buffered value of
    column [j] (re-read at full length when it was truncated) into row [i]
    of the given output column. *)
Definition set_list_value (r : MariaRow) (col : list (option value))
    (i : Z) (j : nat) : list (option value) :=
  update_nth col (Z.to_nat i) (nth_error (row_buffers r) j).

(** ** The columnar table *)

(** Modelled from the spec: [df_create] allocates a table of [n] rows, one
    column per type, no cell written yet. *)
Definition df_create (types : list MariaFieldType) (names : list string)
    (n : Z) : data_frame :=
  mkDf names types n (map (fun _ => repeat None (Z.to_nat n)) types) false.

Definition resize_col (n : nat) (col : list (option value)) : list (option value) :=
  firstn n col ++ repeat None (n - length col).

(** Modelled from the spec: [df_resize] gives every column [n] cells,
    keeping the first ones and padding with unwritten cells. *)
Definition df_resize (out : data_frame) (n : Z) : data_frame :=
  mkDf (df_names out) (df_types out) n
       (map (resize_col (Z.to_nat n)) (df_cols out)) (df_classed out).

(** Modelled from the spec: [df_s3] tags the columns with the classes of
    their logical types. *)
Definition df_s3 (out : data_frame) (types : list MariaFieldType) : data_frame :=
  mkDf (df_names out) (df_types out) (df_nrow out) (df_cols out) true.

(** [out[j] <- f(out[j])] *)
Fixpoint map_nth {A} (f : A -> A) (l : list A) (j : nat) : list A :=
  match l, j with
  | [], _ => []
  | h :: t, O => f h :: t
  | h :: t, S j' => h :: map_nth f t j'
  end.

Definition df_update_col (out : data_frame) (j : nat)
    (f : list (option value) -> list (option value)) : data_frame :=
  mkDf (df_names out) (df_types out) (df_nrow out)
       (map_nth f (df_cols out) j) (df_classed out).

(** ** MariaResult's methods *)

(** The Type Mapper, declared in a header: server type code and
    binary-charset flag to logical type. *)
Variable variable_type_from_field_type : Z -> bool -> MariaFieldType.

Definition has_result (r : MariaResult) : bool :=
  match pSpec_ r with
  | Some _ => true
  | None => false
  end.

Definition throw_error {A} : M A :=
  s <- get_stmt ;;
  throw (ProtocolError (stmt_error s) (stmt_errno s)).

(** The constructor. [nCols_] and [nParams_] are not in its initializer
    list: they start with whatever the memory holds. *)
Definition MariaResult_new (self : nat) (nCols0 nParams0 : Z)
    (c : MariaConnection) (tr : list event) (ip : bool) : outcome unit :=
  (p <- mysql_stmt_init ;;
   update_this (set_pStatement p) ;;;
   match p with
   | None => throw (Stop "Out of memory")
   | Some _ => update_conn (set_current_result (Some self))
   end)
  (mkWorld (mkResult self None None 0 0 nCols0 nParams0 false false [] []
              (mkBinding [] 0) (mkRow [] []))
           c tr ip).

Definition execute : M unit :=
  update_this (set_complete false) ;;;
  rc <- mysql_stmt_execute ;;
  (if negb (rc =? 0) then throw_error else ret tt) ;;;
  r <- get_this ;;
  if has_result r then
    mysql_stmt_store_result
  else
    a <- mysql_stmt_affected_rows ;;
    r <- get_this ;;
    update_this (set_rowsAffected (u64 (rowsAffected_ r + a))).

Definition cache_metadata : M unit :=
  r <- get_this ;;
  match pSpec_ r with
  | None => throw NullHandle
  | Some fields =>
      let n := static_cast_int (Z.of_nat (length fields)) in
      update_this (set_nCols n) ;;;
      let fs := firstn (Z.to_nat n) fields in
      update_this (fun r => set_names (names_ r ++ map field_name fs) r) ;;;
      update_this (fun r =>
        set_types (types_ r ++
                   map (fun f => variable_type_from_field_type
                                   (field_type f) (field_charsetnr f =? 63)) fs) r)
  end.

Definition send_query (sql : string) : M unit :=
  rc <- mysql_stmt_prepare sql ;;
  (if negb (rc =? 0) then throw_error else ret tt) ;;;
  n <- mysql_stmt_param_count ;;
  update_this (set_nParams (static_cast_int n)) ;;;
  md <- mysql_stmt_result_metadata ;;
  update_this (set_pSpec md) ;;;
  r <- get_this ;;
  (if nParams_ r =? 0 then
     execute ;;;
     update_this (set_bound true)
   else ret tt) ;;;
  r <- get_this ;;
  if has_result r then
    cache_metadata ;;;
    r <- get_this ;;
    bindingOutput_setup (types_ r)
  else ret tt.

Definition close : M unit :=
  r <- get_this ;;
  (if has_result r then
     mysql_free_result ;;;
     update_this (set_pSpec None)
   else ret tt) ;;;
  r <- get_this ;;
  (match pStatement_ r with
   | Some _ =>
       mysql_stmt_close ;;;
       update_this (set_pStatement None)
   | None => ret tt
   end) ;;;
  autocommit.

(** The destructor swallows whatever its body throws. *)
Definition MariaResult_delete : M unit :=
  fun w =>
    match (update_conn (set_current_result None) ;;; close) w with
    | Ok _ w' => Ok tt w'
    | Throw _ w' => Ok tt w'
    | OutOfFuel => OutOfFuel
    end.

(** [while (bindingInput_.bind_next_row()) execute();] with one unit of
    fuel per loop test. *)
Fixpoint bind_loop (fuel : nat) : M unit :=
  match fuel with
  | O => fun _ => OutOfFuel
  | S fuel' =>
      b <- bind_next_row ;;
      if b then execute ;;; bind_loop fuel' else ret tt
  end.

(** Rows of the parameter table at or after the cursor. *)
Definition binding_remaining (b : MariaBinding) : nat :=
  (length (binding_params b) - binding_i b)%nat.

Definition bind (params : list (list value)) : M unit :=
  update_this (set_rowsAffected 0) ;;;
  bindingInput_setup ;;;
  init_binding params ;;;
  r <- get_this ;;
  (if has_result r then
     update_this (set_complete true)
   else
     bind_loop (S (binding_remaining (bindingInput_ r)))) ;;;
  update_this (set_bound true).

Definition fetch_row : M bool :=
  r <- get_this ;;
  if complete_ r then ret false else
  result <- mysql_stmt_fetch ;;
  if (result =? MYSQL_DATA_TRUNCATED) || (result =? 0) then ret true
  else if result =? 1 then throw_error
  else if result =? MYSQL_NO_DATA then
    update_this (set_complete true) ;;;
    ret false
  else ret false.

(** [while (!fetch_row()) { if (!bind_next_row()) return false; execute(); }]:
    true when the loop is left with a row, false for the early return. *)
Fixpoint step_loop (fuel : nat) : M bool :=
  match fuel with
  | O => fun _ => OutOfFuel
  | S fuel' =>
      got <- fetch_row ;;
      if got then ret true else
      b <- bind_next_row ;;
      if negb b then ret false else
      execute ;;;
      step_loop fuel'
  end.

Definition step : M bool :=
  r <- get_this ;;
  got <- step_loop (S (binding_remaining (bindingInput_ r))) ;;
  if got then
    update_this (fun r => set_rowsFetched (u64 (rowsFetched_ r + 1)) r) ;;;
    ret true
  else ret false.

Definition active : M bool :=
  r <- get_this ;;
  is_current_result (self_ r).

(** [for (int j = 0; j < nCols_; ++j) set_list_value(out[j], i, j);] *)
Definition copy_row (r : MariaResult) (out : data_frame) (i : Z) : data_frame :=
  fold_left
    (fun out j => df_update_col out j
                    (fun col => set_list_value (bindingOutput_ r) col i j))
    (seq 0 (Z.to_nat (nCols_ r))) out.

(** The body of [for (;;)] in [fetch], one unit of fuel per iteration. *)
Fixpoint fetch_loop (fuel : nat) (n_max : Z) (i n : Z) (out : data_frame)
    : M (Z * Z * data_frame) :=
  match fuel with
  | O => fun _ => OutOfFuel
  | S fuel' =>
      if (i >=? n) && (n_max >? 0) then ret (i, n, out) else
      got <- step ;;
      if negb got then ret (i, n, out) else
      let n' := if i >=? n then static_cast_int (n * 2) else n in
      let out := if i >=? n then df_resize out n' else out in
      r <- get_this ;;
      let out := copy_row r out i in
      let i' := static_cast_int (i + 1) in
      (if Z.rem i' 1000 =? 0 then checkUserInterrupt else ret tt) ;;;
      fetch_loop fuel' n_max i' n' out
  end.

Definition fetch (fuel : nat) (n_max : Z) : M data_frame :=
  r <- get_this ;;
  if negb (bound_ r) then
    throw (Stop "Query needs to be bound before fetching")
  else
  a <- active ;;
  if negb a then throw (Stop "Inactive result set") else
  if negb (has_result r) then
    (if (length (names_ r) =? 0)%nat then
       warning "Use dbExecute() instead of dbGetQuery() for statements, and also avoid dbFetch()"
     else ret tt) ;;;
    ret (df_create (types_ r) (names_ r) 0)
  else
  let n := if n_max <? 0 then 100 else n_max in
  let out := df_create (types_ r) (names_ r) n in
  if n =? 0 then ret out else
  res <- fetch_loop fuel n_max 0 n out ;;
  let '(i, n, out) := res in
  let out := if i <? n then df_resize out i else out in
  ret (df_s3 out (types_ r)).

Definition rows_affected : M Z :=
  r <- get_this ;;
  if negb (bound_ r) then ret NA_INTEGER
  else ret (static_cast_int (rowsAffected_ r)).

Definition rows_fetched : M Z :=
  r <- get_this ;;
  if negb (bound_ r) then ret 0
  else ret (static_cast_int (rowsFetched_ r)).

Definition complete : M bool :=
  r <- get_this ;;
  if negb (bound_ r) then ret false
  else ret (negb (has_result r) || complete_ r).

(** ** Observations on worlds, used to state the properties *)

Definition is_execute (e : event) : bool :=
  match e with EvExecute _ _ => true | _ => false end.

Definition is_free_result (e : event) : bool :=
  match e with EvFreeResult => true | _ => false end.

Definition is_stmt_close (e : event) : bool :=
  match e with EvStmtClose => true | _ => false end.

Definition count_events (p : event -> bool) (tr : list event) : nat :=
  length (filter p tr).

(** Whether the result object is the connection's current result. *)
Definition current (w : world) : bool :=
  match conn_current_result (conn w) with
  | Some p => Nat.eqb p (self_ (this w))
  | None => false
  end.

(** What fetching leaves alone: the identity of the result object, its
    metadata and flags set at prepare and bind time, the connection's
    server and current result, and R's interrupt flag. *)
Definition fetch_frame (w w' : world) : Prop :=
  self_ (this w') = self_ (this w) /\
  pSpec_ (this w') = pSpec_ (this w) /\
  nCols_ (this w') = nCols_ (this w) /\
  bound_ (this w') = bound_ (this w) /\
  types_ (this w') = types_ (this w) /\
  names_ (this w') = names_ (this w) /\
  conn_server (conn w') = conn_server (conn w) /\
  conn_current_result (conn w') = conn_current_result (conn w) /\
  interrupt_pending w' = interrupt_pending w.

(** [complete()] as the specification words it. *)
Definition complete_spec (r : MariaResult) : bool :=
  negb (bound_ r) || negb (has_result r) || complete_ r.

(** The rows a buffered result set delivers, when no fetch fails. *)
Fixpoint rows_of (rs : list fetch_outcome) : option (list (list value)) :=
  match rs with
  | [] => Some []
  | FetchRow row :: t | FetchTruncated row :: t =>
      match rows_of t with
      | Some l => Some (row :: l)
      | None => None
      end
  | FetchError _ _ :: _ => None
  end.

(** The rows that executing the statement once per parameter row in [ps]
    delivers, when every execution and every fetch succeeds. *)
Fixpoint rows_ahead (srv : server) (sql : string) (d : db)
    (ps : list (list value)) : option (list (list value)) :=
  match ps with
  | [] => Some []
  | p :: ps' =>
      match server_execute srv d sql p with
      | (ExecOk _ rs, d') =>
          match rows_of rs, rows_ahead srv sql d' ps' with
          | Some a, Some b => Some (a ++ b)
          | _, _ => None
          end
      | (ExecError _ _, _) => None
      end
  end.

(** The rows still to come for an open statement: the rest of the current
    result set, then those of the parameter rows not yet bound. *)
Definition rows_pending (w : world) : option (list (list value)) :=
  match pStatement_ (this w) with
  | None => None
  | Some s =>
      match (if complete_ (this w) then Some [] else rows_of (stmt_result s)),
            rows_ahead (conn_server (conn w)) (stmt_sql s) (conn_db (conn w))
              (skipn (binding_i (bindingInput_ (this w)))
                     (binding_params (bindingInput_ (this w)))) with
      | Some a, Some b => Some (a ++ b)
      | _, _ => None
      end
  end.

(** Nothing is left to fetch or to bind. *)
Definition exhausted (w : world) : Prop :=
  complete_ (this w) = true /\
  binding_remaining (bindingInput_ (this w)) = 0%nat.

(** The affected-row counts of executing the statement once per parameter
    row, with the database they leave, when every execution succeeds. *)
Fixpoint batch_affected (srv : server) (sql : string) (d : db)
    (ps : list (list value)) : option (list Z * db) :=
  match ps with
  | [] => Some ([], d)
  | p :: ps' =>
      match server_execute srv d sql p with
      | (ExecOk a _, d') =>
          match batch_affected srv sql d' ps' with
          | Some (l, d'') => Some (u64 a :: l, d'')
          | None => None
          end
      | (ExecError _ _, _) => None
      end
  end.

Definition sum_Z (l : list Z) : Z := fold_right Z.add 0 l.

(** What binding and executing the parameter rows [ps] in order logs, most
    recent first. *)
Fixpoint batch_events (sql : string) (ps : list (list value)) : list event :=
  match ps with
  | [] => []
  | p :: ps' => batch_events sql ps' ++ [EvExecute sql p; EvBindParam p]
  end.

(** How many answers to [mysql_stmt_fetch], rows or errors, the executions
    for the parameter rows [ps] hold, up to the first execution that fails. *)
Fixpoint outcomes_ahead (srv : server) (sql : string) (d : db)
    (ps : list (list value)) : nat :=
  match ps with
  | [] => O
  | p :: ps' =>
      match server_execute srv d sql p with
      | (ExecOk _ rs, d') => (length rs + outcomes_ahead srv sql d' ps')%nat
      | (ExecError _ _, _) => O
      end
  end.

(** A bound on the rows the loop of [fetch] can still take: the answers
    left in the current result set and in those to come. *)
Definition fetch_budget (w : world) : nat :=
  match pStatement_ (this w) with
  | None => O
  | Some s =>
      ((if complete_ (this w) then O else length (stmt_result s))
       + outcomes_ahead (conn_server (conn w)) (stmt_sql s) (conn_db (conn w))
           (skipn (binding_i (bindingInput_ (this w)))
                  (binding_params (bindingInput_ (this w)))))%nat
  end.

(** Cell [i] of column [j], when the table has it. *)
Definition df_cell (out : data_frame) (i j : nat) : option (option value) :=
  match nth_error (df_cols out) j with
  | Some col => nth_error col i
  | None => None
  end.

(** Every column has exactly [df_nrow] cells. *)
Definition df_wf (out : data_frame) : Prop :=
  0 <= df_nrow out /\
  Forall (fun col => length col = Z.to_nat (df_nrow out)) (df_cols out).

(** The rows a result set delivers before its first failing fetch, with
    the error of that fetch; [None] when no fetch fails. *)
Fixpoint first_error (rs : list fetch_outcome)
    : option (list (list value) * string * Z) :=
  match rs with
  | [] => None
  | FetchRow row :: t | FetchTruncated row :: t =>
      match first_error t with
      | Some (l, msg, code) => Some (row :: l, msg, code)
      | None => None
      end
  | FetchError msg code :: _ => Some ([], msg, code)
  end.

(** ** column_info *)

(** The inverse Type Mapper, declared in a header: the name of a logical
    type. *)
Variable type_name : MariaFieldType -> string.

(** The data frame [column_info()] builds: its two character columns and
    its attributes. *)
Record column_frame : Type := mkColumnFrame {
  cf_name : list string;
  cf_type : list string;
  cf_row_names : Z * Z;
  cf_class : string;
  cf_names : list string
}.

(** [column_info()] changes nothing, so it is a function of the object.
    [None] stands for what C++ leaves undefined: a negative length for the
    two vectors, or a read past the end of [names_] or [types_]. *)
Definition column_info (r : MariaResult) : option column_frame :=
  if nCols_ r <? 0 then None else
  match
    fold_left
      (fun acc i =>
         match acc, nth_error (names_ r) i, nth_error (types_ r) i with
         | Some (names, types), Some n, Some t =>
             Some (names ++ [n], types ++ [type_name t])
         | _, _, _ => None
         end)
      (seq 0 (Z.to_nat (nCols_ r))) (Some ([], []))
  with
  | Some (names, types) =>
      Some (mkColumnFrame names types
              (NA_INTEGER, static_cast_int (- nCols_ r))
              "data.frame" ["name"%string; "type"%string])
  | None => None
  end.

End Model.

Arguments Ok {value db MariaFieldType A} a w.
Arguments Throw {value db MariaFieldType A} e w.
Arguments OutOfFuel {value db MariaFieldType A}.

(** ** A small server to run the scenarios on *)

Module Scenario.

Inductive column_type : Type := TInt | TString | TBlob.

Definition type_of_field (code : Z) (binary : bool) : column_type :=
  if code =? 3 then TInt else if binary then TBlob else TString.

Definition select_1 : string := "SELECT 1".
Definition insert_t : string := "INSERT INTO t VALUES (?)".
Definition select_upto : string := "SELECT x FROM seq WHERE x <= ?".

(** Rows [k], [k-1], ..., [1], each of one column. *)
Fixpoint countdown (k : nat) : list (@fetch_outcome Z) :=
  match k with
  | O => []
  | S k' => FetchRow [Z.of_nat k] :: countdown k'
  end.

(** The database is the number of rows of table [t]. *)
Definition srv : @server Z Z :=
  mkServer
    (fun _ => true)
    (fun _ sql =>
       if String.eqb sql select_1 then PrepareOk 0 (Some [mkField "1" 3 63])
       else if String.eqb sql insert_t then PrepareOk 1 None
       else if String.eqb sql select_upto then PrepareOk 1 (Some [mkField "x" 3 63])
       else PrepareError "You have an error in your SQL syntax" 1064)
    (fun d sql row =>
       if String.eqb sql select_1 then (ExecOk 0 [FetchRow [1]], d)
       else if String.eqb sql insert_t then (ExecOk 1 [], d + 1)
       else if String.eqb sql select_upto then
         (ExecOk 0 (countdown (Z.to_nat (hd 0 row))), d)
       else (ExecError "Unknown command" 1047, d)).

Definition connection : @MariaConnection Z Z := mkConn srv 0 None.

(** A result object just constructed on [connection]. *)
Definition fresh : @world Z Z column_type :=
  match MariaResult_new 1 0 0 connection [] false with
  | Ok _ w => w
  | Throw _ w => w
  | OutOfFuel => mkWorld (mkResult 1 None None 0 0 0 0 false false [] []
                            (mkBinding [] 0) (mkRow [] [])) connection [] false
  end.

Definition after {A} (c : M A) (w : @world Z Z column_type) : @world Z Z column_type :=
  match c w with
  | Ok _ w' => w'
  | Throw _ w' => w'
  | OutOfFuel => w
  end.

Definition returned {A} (o : @outcome Z Z column_type A) : option A :=
  match o with
  | Ok a _ => Some a
  | _ => None
  end.

(** [SELECT 1], prepared (and so executed). *)
Definition selected : world := after (send_query type_of_field select_1) fresh.

(** The parameterised select, prepared. *)
Definition prepared_select : world := after (send_query type_of_field select_upto) fresh.

(** The parameterised select, bound to rows asking for 2 and 3 rows. *)
Definition bound_select : world := after (bind [[2]; [3]]) prepared_select.

(** The insert, prepared. *)
Definition prepared_insert : world := after (send_query type_of_field insert_t) fresh.

(** The insert, bound to three parameter rows. *)
Definition inserted : world := after (bind [[7]; [8]; [9]]) prepared_insert.

(** The parameterised select, bound to one row asking for 250 rows. *)
Definition bound_250 : world := after (bind [[250]]) prepared_select.

(** The rows [k], [k-1], ..., [1] as the caller sees them. *)
Definition rows_down (k : nat) : list (list Z) :=
  map (fun x => [Z.of_nat x]) (rev (seq 1 k)).

(** A second server: it has no memory left for statements when its
    database is negative, rejects the insert of a negative value as a
    duplicate, loses the connection after two rows of [select_flaky],
    cannot drop the table it does not have, updates 2^31 rows at once
    and 2^30 rows for each half of the big table. *)
Definition select_flaky : string := "SELECT x FROM flaky".
Definition drop_u : string := "DROP TABLE u".
Definition update_big : string := "UPDATE big SET x = 0".
Definition update_half : string := "UPDATE big SET x = 0 WHERE half = ?".

Definition srv2 : @server Z Z :=
  mkServer
    (fun d => 0 <=? d)
    (fun _ sql =>
       if String.eqb sql insert_t then PrepareOk 1 None
       else if String.eqb sql select_flaky
            then PrepareOk 0 (Some [mkField "x" 3 63])
       else if String.eqb sql drop_u then PrepareOk 0 None
       else if String.eqb sql update_big then PrepareOk 0 None
       else if String.eqb sql update_half then PrepareOk 1 None
       else PrepareError "You have an error in your SQL syntax" 1064)
    (fun d sql row =>
       if String.eqb sql insert_t then
         if hd 0 row <? 0 then (ExecError "Duplicate entry" 1062, d)
         else (ExecOk 1 [], d + 1)
       else if String.eqb sql select_flaky then
         (ExecOk 0 [FetchRow [1]; FetchTruncated [2];
                    FetchError "Lost connection to server during query" 2013;
                    FetchRow [3]], d)
       else if String.eqb sql drop_u then (ExecError "Unknown table" 1051, d)
       else if String.eqb sql update_big then (ExecOk 2147483648 [], d)
       else if String.eqb sql update_half then (ExecOk 1073741824 [], d)
       else (ExecError "Unknown command" 1047, d)).

Definition connection2 : @MariaConnection Z Z := mkConn srv2 0 None.

Definition fresh2 : @world Z Z column_type :=
  after (fun w => MariaResult_new 2 0 0 connection2 [] false) fresh.

(** The insert, prepared on the second server. *)
Definition prepared_insert2 : world :=
  after (send_query type_of_field insert_t) fresh2.

(** [select_flaky], prepared (and so executed). *)
Definition selected_flaky : world :=
  after (send_query type_of_field select_flaky) fresh2.

(** [select_flaky] after two rows have been stepped over. *)
Definition flaky_after_two : world := after step (after step selected_flaky).

(** The update of 2^31 rows, prepared (and so executed). *)
Definition mass_updated : world :=
  after (send_query type_of_field update_big) fresh2.

(** The update of one half of the big table, prepared, and then bound to
    both halves. *)
Definition prepared_update_half : world :=
  after (send_query type_of_field update_half) fresh2.

Definition halves_updated : world :=
  after (bind [[0]; [1]]) prepared_update_half.

(** The parameterised select bound to one row asking for 1200 rows, with
    the user's interrupt pending. *)
Definition interrupted_1200 : world :=
  match after (bind [[1200]]) prepared_select with
  | mkWorld r c tr _ => mkWorld r c tr true
  end.

Definition type_label (t : column_type) : string :=
  match t with
  | TInt => "integer"
  | TString => "character"
  | TBlob => "raw"
  end.

End Scenario.

(** * Properties *)

Section Properties.

Context {value db MariaFieldType : Type}.

Abbreviation World := (@world value db MariaFieldType).
Abbreviation Result := (@MariaResult value MariaFieldType).
Abbreviation Table := (@data_frame value MariaFieldType).

(** Takes a world apart down to the fields of the result object. *)
Ltac open_world w :=
  let r := fresh "r" in
  let c := fresh "c" in
  destruct w as [r c ? ?]; destruct r; destruct c; simpl in *.

(** Splits a conjunction into its conjuncts, unfolding nothing. *)
Ltac conjuncts := repeat match goal with |- _ /\ _ => split end.

(** Unfolds the monad and the primitive accessors. *)
Ltac run :=
  unfold mbind, ret, throw, get_this, update_this, get_conn, update_conn,
         emit, get_stmt, put_stmt; simpl.

(** The loops unfold only on request. *)
Local Arguments bind_loop : simpl never.
Local Arguments step_loop : simpl never.
Local Arguments fetch_loop : simpl never.

Lemma bind_loop_S (fuel : nat) :
  @bind_loop value db MariaFieldType (S fuel) =
  mbind bind_next_row
    (fun b => if b then mbind execute (fun _ => bind_loop fuel) else ret tt).
Proof. reflexivity. Qed.

Lemma step_loop_S (fuel : nat) :
  @step_loop value db MariaFieldType (S fuel) =
  mbind fetch_row (fun got =>
    if got then ret true else
    mbind bind_next_row (fun b =>
      if negb b then ret false else
      mbind execute (fun _ => step_loop fuel))).
Proof. reflexivity. Qed.

(** ** Status queries *)

(** C1 (amended): [complete()] returns false if the statement is not bound;
    if it is bound, it returns true if the statement has no result set or the
    completion flag is set, and false otherwise. It changes nothing. *)
Theorem complete_bound_guard (w : World) :
  complete w =
  Ok (bound_ (this w) && (negb (has_result (this w)) || complete_ (this w))) w.
Proof.
  unfold complete. run.
  destruct (bound_ (this w)); reflexivity.
Qed.

Lemma static_cast_int_small (x : Z) :
  0 <= x <= INT_MAX -> static_cast_int x = x.
Proof.
  unfold static_cast_int, INT_MAX. intros H.
  rewrite Z.mod_small by lia. lia.
Qed.

(** C2 (amended): for a statement that has never been bound,
    [rows_affected()] returns the "not available" sentinel and
    [rows_fetched()] returns 0; once bound, each returns its accumulated
    counter, as long as the counter does not exceed [INT_MAX]. *)
Theorem rows_counters (w : World) :
  (bound_ (this w) = false ->
   rows_affected w = Ok NA_INTEGER w /\ rows_fetched w = Ok 0 w) /\
  (bound_ (this w) = true ->
   0 <= rowsAffected_ (this w) <= INT_MAX ->
   rows_affected w = Ok (rowsAffected_ (this w)) w) /\
  (bound_ (this w) = true ->
   0 <= rowsFetched_ (this w) <= INT_MAX ->
   rows_fetched w = Ok (rowsFetched_ (this w)) w).
Proof.
  unfold rows_affected, rows_fetched. run.
  conjuncts; intros Hb; rewrite Hb; simpl.
  - split; reflexivity.
  - intros H. rewrite static_cast_int_small by exact H. reflexivity.
  - intros H. rewrite static_cast_int_small by exact H. reflexivity.
Qed.

(** ** close *)

Lemma close_closed (w : World) :
  pSpec_ (this w) = None ->
  pStatement_ (this w) = None ->
  close w = Ok tt (mkWorld (this w) (conn w) (EvAutocommit :: trace w)
                           (interrupt_pending w)).
Proof.
  intros Hs Hp. destruct w as [r c tr ip]. simpl in *.
  unfold close, has_result, autocommit. run.
  rewrite Hs. simpl. rewrite Hp. reflexivity.
Qed.

Lemma close_releases (w : World) :
  exists w1,
    close w = Ok tt w1 /\
    pSpec_ (this w1) = None /\
    pStatement_ (this w1) = None /\
    interrupt_pending w1 = interrupt_pending w /\
    count_events is_free_result (trace w1) =
      (count_events is_free_result (trace w)
       + if has_result (this w) then 1 else 0)%nat /\
    count_events is_stmt_close (trace w1) =
      (count_events is_stmt_close (trace w)
       + match pStatement_ (this w) with Some _ => 1 | None => 0 end)%nat.
Proof.
  open_world w.
  unfold close, has_result, autocommit, mysql_free_result, mysql_stmt_close.
  run.
  destruct pSpec_0; destruct pStatement_0; simpl;
    eexists; (split; [reflexivity|]); simpl; unfold count_events; simpl;
    repeat split; auto; lia.
Qed.

(** C9: [close()] is idempotent. The first call releases the result
    metadata and the statement handle at most once each; a second call
    succeeds, releases nothing and changes nothing, apart from asking the
    connection again for its autocommit mode. *)
Theorem close_idempotent (w : World) :
  exists w1 w2,
    close w = Ok tt w1 /\
    close w1 = Ok tt w2 /\
    w2 = mkWorld (this w1) (conn w1) (EvAutocommit :: trace w1)
                 (interrupt_pending w1) /\
    (count_events is_free_result (trace w2)
       <= count_events is_free_result (trace w) + 1)%nat /\
    (count_events is_stmt_close (trace w2)
       <= count_events is_stmt_close (trace w) + 1)%nat.
Proof.
  destruct (close_releases w) as (w1 & H1 & Hs & Hp & _ & Hf & Hc).
  exists w1. eexists. split; [exact H1|].
  split; [apply close_closed; assumption|].
  split; [reflexivity|]. simpl.
  split; unfold count_events in *; simpl.
  - rewrite Hf. destruct (has_result (this w)); lia.
  - rewrite Hc. destruct (pStatement_ (this w)); lia.
Qed.

(** ** fetch: preconditions and the empty request *)

Lemma active_current (w : World) : active w = Ok (current w) w.
Proof. reflexivity. Qed.

Lemma active_inv (w : World) (b : bool) :
  active w = Ok b w -> current w = b.
Proof. rewrite active_current. intros H. injection H. auto. Qed.

(** C8: [fetch(n_max)] on a statement that is not yet bound, or on a result
    object that is not the connection's current result, stops with an error
    and leaves the world as it was: nothing fetched, nothing logged, no
    field changed. *)
Theorem fetch_precondition (fuel : nat) (n_max : Z) (w : World) :
  bound_ (this w) = false \/ active w = Ok false w ->
  fetch fuel n_max w =
  Throw (Stop (if bound_ (this w) then "Inactive result set"
               else "Query needs to be bound before fetching")) w.
Proof.
  intros H. unfold fetch. run.
  destruct (bound_ (this w)); simpl.
  - destruct H as [H|H]; [discriminate|].
    apply active_inv in H. unfold current in H. rewrite H. reflexivity.
  - reflexivity.
Qed.

(** C10: on a bound, active statement with a result set, [fetch(0)] returns
    at once a table of zero rows with the cached column names and types; the
    world is unchanged, so no row was fetched from the server and the
    fetched-row counter and the completion flag are as before. *)
Theorem fetch_zero (fuel : nat) (w : World) :
  bound_ (this w) = true ->
  active w = Ok true w ->
  has_result (this w) = true ->
  exists out,
    fetch fuel 0 w = Ok out w /\
    df_nrow out = 0 /\
    df_names out = names_ (this w) /\
    df_types out = types_ (this w) /\
    Forall (fun col => col = []) (df_cols out).
Proof.
  intros Hb Ha Hr. unfold fetch. run.
  apply active_inv in Ha. unfold current in Ha.
  rewrite Hb. simpl. rewrite Ha. simpl. rewrite Hr. simpl.
  eexists. split; [reflexivity|]. simpl.
  repeat split. apply Forall_forall. intros col Hin.
  apply in_map_iff in Hin. destruct Hin as (t & <- & _). reflexivity.
Qed.

(** ** fetch_row *)

(** C7: a call of [fetch_row()] on an open statement ends in exactly one of
    three ways. It returns true with the next row, whole or truncated, in
    the output buffers; or it throws the statement's error, message and
    code as the server gave them; or it returns false with the result
    marked complete. *)
Theorem fetch_row_outcomes (w : World) (s : MYSQL_STMT) :
  pStatement_ (this w) = Some s ->
  (exists row rs w',
     complete_ (this w) = false /\
     (stmt_result s = FetchRow row :: rs \/
      stmt_result s = FetchTruncated row :: rs) /\
     fetch_row w = Ok true w' /\
     row_buffers (bindingOutput_ (this w')) = row /\
     complete_ (this w') = false) \/
  (exists msg code rs w',
     complete_ (this w) = false /\
     stmt_result s = FetchError msg code :: rs /\
     fetch_row w = Throw (ProtocolError msg code) w') \/
  (exists w',
     (complete_ (this w) = true \/ stmt_result s = []) /\
     fetch_row w = Ok false w' /\
     complete_ (this w') = true).
Proof.
  intros Hs. open_world w. subst.
  unfold fetch_row, mysql_stmt_fetch, throw_error. run.
  destruct complete_0.
  - right; right. eexists. split; [left; reflexivity|].
    split; reflexivity.
  - destruct s as [sql n md b [|[row|row|msg code] rs] a em en]; simpl.
    + right; right. eexists. split; [right; reflexivity|].
      split; reflexivity.
    + left. exists row, rs. eexists. split; [reflexivity|].
      split; [left; reflexivity|]. repeat split.
    + left. exists row, rs. eexists. split; [reflexivity|].
      split; [right; reflexivity|]. repeat split.
    + right; left. exists msg, code, rs. eexists.
      split; [reflexivity|]. split; reflexivity.
Qed.

(** ** bind on a statement with a result set *)

(** C3 (amended): on a statement with a result set [bind(parameters)]
    executes nothing and reaches the server in no way; it zeroes the
    affected-row counter, puts the parameter cursor on the first row, sets
    the completion flag to true, so that the first step finds nothing to
    fetch and turns to the parameters, and sets the bound flag to true.
    What is then pending is what executing the statement once per
    parameter row will deliver. *)
Theorem bind_defers_execution (params : list (list value)) (w : World) :
  has_result (this w) = true ->
  exists w',
    bind params w = Ok tt w' /\
    trace w' = trace w /\
    conn w' = conn w /\
    pStatement_ (this w') = pStatement_ (this w) /\
    rowsAffected_ (this w') = 0 /\
    bindingInput_ (this w') = mkBinding params 0 /\
    complete_ (this w') = true /\
    bound_ (this w') = true /\
    rows_pending w' =
      match pStatement_ (this w) with
      | Some s => rows_ahead (conn_server (conn w)) (stmt_sql s)
                             (conn_db (conn w)) params
      | None => None
      end.
Proof.
  intros Hr. open_world w.
  unfold bind, bindingInput_setup, init_binding. run.
  unfold has_result in *. simpl in *. destruct pSpec_0; [|discriminate].
  simpl. eexists. split; [reflexivity|]. simpl.
  do 7 (split; [reflexivity|]).
  unfold rows_pending. simpl. destruct pStatement_0 as [s|]; [|reflexivity].
  change (skipn 0 params) with params.
  destruct (rows_ahead conn_server0 (stmt_sql s) conn_db0 params);
    reflexivity.
Qed.

(** ** send_query on a statement without parameters *)


(** ** bind on a statement without a result set *)

Lemma skipn_cons_nth_error {A} (l : list A) (i : nat) (x : A) (t : list A) :
  skipn i l = x :: t -> nth_error l i = Some x /\ skipn (S i) l = t.
Proof.
  revert l. induction i as [|i IH]; intros [|h l] H; simpl in *;
    try discriminate.
  - injection H as -> ->. split; reflexivity.
  - apply IH in H. exact H.
Qed.

Lemma skipn_nil_nth_error {A} (l : list A) (i : nat) :
  skipn i l = [] -> nth_error l i = None /\ (length l - i = 0)%nat.
Proof.
  revert l. induction i as [|i IH]; intros [|h l] H; simpl in *;
    try discriminate; auto.
Qed.

Lemma u64_add_l (x y : Z) : u64 (u64 x + y) = u64 (x + y).
Proof. unfold u64. apply Z.add_mod_idemp_l. lia. Qed.

Lemma u64_add_r (x y : Z) : u64 (x + u64 y) = u64 (x + y).
Proof. unfold u64. apply Z.add_mod_idemp_r. lia. Qed.

Lemma u64_range (x : Z) : 0 <= u64 x < 2 ^ 64.
Proof. unfold u64. apply Z.mod_pos_bound. lia. Qed.

Lemma batch_affected_counts (srv : server) (sql : string)
    (ps : list (list value)) :
  forall (d d' : db) (counts : list Z),
    batch_affected srv sql d ps = Some (counts, d') ->
    length counts = length ps /\ 0 <= sum_Z counts.
Proof.
  induction ps as [|p ps IH]; intros d d' counts H; simpl in H.
  - injection H as <- <-. simpl. split; [reflexivity|lia].
  - destruct (server_execute srv d sql p) as [[msg code|a rs] d1];
      [discriminate|].
    destruct (batch_affected srv sql d1 ps) as [[l d2]|] eqn:Hb;
      [|discriminate].
    injection H as <- <-. apply IH in Hb. destruct Hb as [Hl Hs].
    simpl. pose proof (u64_range a). split; [congruence|lia].
Qed.

Lemma bind_loop_batch (ps : list (list value)) :
  forall (fuel : nat) (w : World) (s : MYSQL_STMT) (counts : list Z) (d' : db),
    (length ps < fuel)%nat ->
    pStatement_ (this w) = Some s ->
    pSpec_ (this w) = None ->
    0 <= rowsAffected_ (this w) < 2 ^ 64 ->
    skipn (binding_i (bindingInput_ (this w)))
          (binding_params (bindingInput_ (this w))) = ps ->
    batch_affected (conn_server (conn w)) (stmt_sql s) (conn_db (conn w)) ps
      = Some (counts, d') ->
    exists w',
      bind_loop fuel w = Ok tt w' /\
      trace w' = batch_events (stmt_sql s) ps ++ trace w /\
      count_events is_execute (trace w')
        = (count_events is_execute (trace w) + length ps)%nat /\
      rowsAffected_ (this w') = u64 (rowsAffected_ (this w) + sum_Z counts) /\
      conn_db (conn w') = d' /\
      bound_ (this w') = bound_ (this w) /\
      pSpec_ (this w') = None.
Proof.
  induction ps as [|p ps IH]; intros fuel w s counts d' Hf Hs Hp Hra Hk Hb;
    (destruct fuel as [|fuel]; [simpl in Hf; lia|]);
    open_world w; destruct bindingInput_0 as [params i];
    destruct s as [sql n md b rs a em en]; simpl in *; subst.
  - apply skipn_nil_nth_error in Hk. destruct Hk as [Hn _].
    injection Hb as <- <-.
    rewrite bind_loop_S. unfold bind_next_row. run. rewrite Hn. simpl.
    eexists. split; [reflexivity|]. simpl.
    repeat split; auto.
    unfold u64. rewrite Z.add_0_r, Z.mod_small; auto.
  - apply skipn_cons_nth_error in Hk. destruct Hk as [Hn Hk].
    destruct (server_execute conn_server0 conn_db0 sql p)
      as [[msg code|a1 rs1] d1] eqn:He; [discriminate|].
    destruct (batch_affected conn_server0 sql d1 ps) as [[l d2]|] eqn:Hb';
      [|discriminate].
    injection Hb as <- <-. rewrite bind_loop_S.
    unfold bind_next_row, execute, mysql_stmt_execute,
      mysql_stmt_affected_rows, mysql_stmt_store_result, throw_error.
    run. rewrite Hn. simpl. rewrite He. simpl.
    match goal with
    | |- context [bind_loop fuel ?W] =>
        edestruct (IH fuel W) as (w' & Hrun & Htr & Hc & Hr & Hd & Hbd & Hsp)
    end; simpl;
      [ lia | reflexivity | reflexivity | apply u64_range | exact Hk
      | exact Hb' | ].
    exists w'. split; [exact Hrun|]. simpl in *.
    rewrite Hc, Hr, Htr. unfold count_events. simpl.
    rewrite <- app_assoc. simpl.
    repeat split; auto; try lia.
    rewrite u64_add_l. f_equal. lia.
Qed.

(** C5: on a statement without a result set, [bind()] with a table of R
    parameter rows that the server executes one after the other zeroes the
    affected-row counter, runs exactly R executions, one per parameter row
    in order, and leaves in [rows_affected()] the sum of the affected-row
    counts of these executions (as long as the sum fits an [int]). *)
Theorem bind_batch (params : list (list value)) (w : World)
    (s : MYSQL_STMT) (counts : list Z) (d' : db) :
  has_result (this w) = false ->
  pStatement_ (this w) = Some s ->
  batch_affected (conn_server (conn w)) (stmt_sql s) (conn_db (conn w)) params
    = Some (counts, d') ->
  exists w',
    bind params w = Ok tt w' /\
    trace w' = batch_events (stmt_sql s) params ++ trace w /\
    count_events is_execute (trace w')
      = (count_events is_execute (trace w) + length params)%nat /\
    length counts = length params /\
    rowsAffected_ (this w') = u64 (sum_Z counts) /\
    (sum_Z counts <= INT_MAX -> rows_affected w' = Ok (sum_Z counts) w') /\
    bound_ (this w') = true /\
    conn_db (conn w') = d'.
Proof.
  intros Hr Hs Hb.
  destruct (batch_affected_counts _ _ _ _ _ _ Hb) as [Hlen Hsum].
  open_world w. unfold has_result in Hr. simpl in Hr.
  destruct pSpec_0; [discriminate|]. subst.
  unfold bind, bindingInput_setup, init_binding. run.
  unfold binding_remaining. simpl. rewrite Nat.sub_0_r.
  match goal with
  | |- context [bind_loop ?f ?W] =>
      edestruct (bind_loop_batch params f W)
        as (w' & Hrun & Htr & Hc & Hra & Hd & Hbd & Hsp)
  end; simpl;
    [ lia | reflexivity | reflexivity | lia | reflexivity | exact Hb | ].
  rewrite Hrun. open_world w'. subst.
  eexists. split; [reflexivity|]. simpl.
  repeat split; auto.
  intros Hle. unfold rows_affected. run.
  rewrite static_cast_int_small.
  - unfold u64. rewrite Z.mod_small; [reflexivity|].
    unfold INT_MAX in Hle. lia.
  - unfold u64. rewrite Z.mod_small; unfold INT_MAX in *; lia.
Qed.

(** ** The columnar table *)

Lemma resize_col_length (n : nat) (col : list (option value)) :
  length (resize_col n col) = n.
Proof.
  unfold resize_col. rewrite length_app, length_firstn, repeat_length. lia.
Qed.

Lemma nth_error_resize_col (n a : nat) (col : list (option value)) :
  (a < n)%nat -> (a < length col)%nat ->
  nth_error (resize_col n col) a = nth_error col a.
Proof.
  intros Hn Hc. unfold resize_col.
  rewrite nth_error_app1 by (rewrite length_firstn; lia).
  rewrite nth_error_firstn.
  destruct (Nat.ltb_spec a n); [reflexivity|lia].
Qed.

Lemma update_nth_length {A} (l : list A) (i : nat) (v : A) :
  length (update_nth l i v) = length l.
Proof.
  revert i. induction l as [|h t IH]; intros [|i]; simpl; auto.
Qed.

Lemma nth_error_update_nth_eq {A} (l : list A) (i : nat) (v : A) :
  (i < length l)%nat -> nth_error (update_nth l i v) i = Some v.
Proof.
  revert i. induction l as [|h t IH]; intros [|i] H; simpl in *;
    try lia; auto. apply IH. lia.
Qed.

Lemma nth_error_update_nth_neq {A} (l : list A) (i a : nat) (v : A) :
  a <> i -> nth_error (update_nth l i v) a = nth_error l a.
Proof.
  revert i a. induction l as [|h t IH]; intros [|i] [|a] H; simpl;
    try reflexivity; try congruence. apply IH. congruence.
Qed.

Lemma map_nth_length {A} (f : A -> A) (l : list A) (j : nat) :
  length (map_nth f l j) = length l.
Proof.
  revert j. induction l as [|h t IH]; intros [|j]; simpl; auto.
Qed.

Lemma nth_error_map_nth_eq {A} (f : A -> A) (l : list A) (j : nat) :
  nth_error (map_nth f l j) j = option_map f (nth_error l j).
Proof.
  revert j. induction l as [|h t IH]; intros [|j]; simpl; auto.
Qed.

Lemma nth_error_map_nth_neq {A} (f : A -> A) (l : list A) (j a : nat) :
  a <> j -> nth_error (map_nth f l j) a = nth_error l a.
Proof.
  revert j a. induction l as [|h t IH]; intros [|j] [|a] H; simpl;
    try reflexivity; try congruence. apply IH. congruence.
Qed.

Lemma Forall_map_nth {A} (P : A -> Prop) (f : A -> A) (l : list A) (j : nat) :
  (forall x, P x -> P (f x)) -> Forall P l -> Forall P (map_nth f l j).
Proof.
  intros Hf. revert j. induction l as [|h t IH]; intros [|j] H; simpl;
    inversion H; subst; constructor; auto.
Qed.

Lemma copy_fold (bo : @MariaRow value MariaFieldType) (i : Z) (m : nat) :
  forall (a : nat) (out : Table),
    let out' :=
      fold_left
        (fun out j => df_update_col out j
                        (fun col => set_list_value bo col i j))
        (seq a m) out in
    df_names out' = df_names out /\
    df_types out' = df_types out /\
    df_nrow out' = df_nrow out /\
    df_classed out' = df_classed out /\
    (df_wf out -> df_wf out') /\
    forall j,
      nth_error (df_cols out') j =
      if (a <=? j)%nat && (j <? a + m)%nat
      then option_map (fun col => set_list_value bo col i j)
                      (nth_error (df_cols out) j)
      else nth_error (df_cols out) j.
Proof.
  induction m as [|m IH]; intros a out; cbv zeta; cbn [seq fold_left].
  - do 4 (split; [reflexivity|]). split; [auto|]. intros j.
    destruct (Nat.leb_spec a j); destruct (Nat.ltb_spec j (a + 0));
      simpl; auto; lia.
  - specialize (IH (S a)
      (df_update_col out a (fun col => set_list_value bo col i a))).
    cbv zeta in IH. destruct IH as (Hn & Ht & Hr & Hc & Hwf & Hcols).
    do 4 (split; [assumption|]). split.
    + intros [H0 HF]. apply Hwf. split; [exact H0|]. simpl.
      apply Forall_map_nth; [|exact HF].
      intros col Hl. unfold set_list_value.
      rewrite update_nth_length. exact Hl.
    + intros j. rewrite Hcols. cbn [df_update_col df_cols].
      destruct (Nat.eq_dec j a) as [->|Hne].
      * rewrite nth_error_map_nth_eq.
        destruct (Nat.leb_spec (S a) a); [lia|]. simpl.
        destruct (Nat.leb_spec a a); [|lia].
        destruct (Nat.ltb_spec a (a + S m)); [|lia]. reflexivity.
      * rewrite nth_error_map_nth_neq by exact Hne.
        destruct (Nat.leb_spec (S a) j); destruct (Nat.leb_spec a j);
          destruct (Nat.ltb_spec j (S a + m));
          destruct (Nat.ltb_spec j (a + S m)); simpl; auto; lia.
Qed.

Lemma copy_row_fields (r : Result) (out : Table) (i : Z) :
  df_names (copy_row r out i) = df_names out /\
  df_types (copy_row r out i) = df_types out /\
  df_nrow (copy_row r out i) = df_nrow out /\
  df_classed (copy_row r out i) = df_classed out /\
  (df_wf out -> df_wf (copy_row r out i)).
Proof.
  unfold copy_row.
  destruct (copy_fold (bindingOutput_ r) i (Z.to_nat (nCols_ r)) 0 out)
    as (Hn & Ht & Hr & Hc & Hwf & _).
  do 4 (split; [assumption|]). exact Hwf.
Qed.

Lemma copy_row_cols (r : Result) (out : Table) (i : Z) (j : nat) :
  nth_error (df_cols (copy_row r out i)) j =
  if (j <? Z.to_nat (nCols_ r))%nat
  then option_map (fun col => set_list_value (bindingOutput_ r) col i j)
                  (nth_error (df_cols out) j)
  else nth_error (df_cols out) j.
Proof.
  unfold copy_row.
  destruct (copy_fold (bindingOutput_ r) i (Z.to_nat (nCols_ r)) 0 out)
    as (_ & _ & _ & _ & _ & Hcols).
  rewrite Hcols. simpl. reflexivity.
Qed.

(** The row just copied is in the table. *)
Lemma copy_row_cell_new (r : Result) (out : Table) (i : Z) (j : nat) :
  df_wf out -> 0 <= i < df_nrow out ->
  (j < Z.to_nat (nCols_ r))%nat -> (j < length (df_cols out))%nat ->
  df_cell (copy_row r out i) (Z.to_nat i) j
  = Some (nth_error (row_buffers (bindingOutput_ r)) j).
Proof.
  intros [H0 HF] Hi Hj Hl. unfold df_cell. rewrite copy_row_cols.
  destruct (Nat.ltb_spec j (Z.to_nat (nCols_ r))); [|lia].
  destruct (nth_error (df_cols out) j) as [col|] eqn:Hc.
  - simpl. unfold set_list_value. apply nth_error_update_nth_eq.
    rewrite Forall_forall in HF. rewrite (HF col).
    + lia.
    + eapply nth_error_In. exact Hc.
  - apply nth_error_None in Hc. lia.
Qed.

(** The rows copied before are untouched. *)
Lemma copy_row_cell_old (r : Result) (out : Table) (i : Z)
    (a j : nat) :
  a <> Z.to_nat i ->
  df_cell (copy_row r out i) a j = df_cell out a j.
Proof.
  intros Ha. unfold df_cell. rewrite copy_row_cols.
  destruct (Nat.ltb_spec j (Z.to_nat (nCols_ r))); [|reflexivity].
  destruct (nth_error (df_cols out) j) as [col|]; simpl; [|reflexivity].
  unfold set_list_value. apply nth_error_update_nth_neq. exact Ha.
Qed.

Lemma copy_fold_ncols (bo : @MariaRow value MariaFieldType) (i : Z) (l : list nat) :
  forall out : Table,
    length (df_cols
      (fold_left
         (fun out j => df_update_col out j
                         (fun col => set_list_value bo col i j)) l out))
    = length (df_cols out).
Proof.
  induction l as [|j l IH]; intros out; cbn [fold_left]; [reflexivity|].
  rewrite IH. cbn [df_update_col df_cols]. apply map_nth_length.
Qed.

Lemma copy_row_ncols (r : Result) (out : Table) (i : Z) :
  length (df_cols (copy_row r out i)) = length (df_cols out).
Proof. apply copy_fold_ncols. Qed.

Lemma df_resize_wf (out : Table) (n : Z) :
  0 <= n -> df_wf (df_resize out n).
Proof.
  intros Hn. split; [exact Hn|]. simpl. apply Forall_forall.
  intros col Hin. apply in_map_iff in Hin. destruct Hin as (c & <- & _).
  apply resize_col_length.
Qed.

Lemma df_resize_cell (out : Table) (n : Z) (a j : nat) :
  df_wf out -> (a < Z.to_nat n)%nat -> (a < Z.to_nat (df_nrow out))%nat ->
  df_cell (df_resize out n) a j = df_cell out a j.
Proof.
  intros [H0 HF] Hn Ha. unfold df_cell. simpl. rewrite nth_error_map.
  destruct (nth_error (df_cols out) j) as [col|] eqn:Hc; simpl;
    [|reflexivity].
  apply nth_error_resize_col; [exact Hn|].
  rewrite Forall_forall in HF. rewrite (HF col); [exact Ha|].
  eapply nth_error_In. exact Hc.
Qed.

Lemma df_create_wf (types : list MariaFieldType) (names : list string) (n : Z) :
  0 <= n -> df_wf (df_create types names n : Table).
Proof.
  intros Hn. split; [exact Hn|]. simpl. apply Forall_forall.
  intros col Hin. apply in_map_iff in Hin. destruct Hin as (c & <- & _).
  apply repeat_length.
Qed.

(** ** step *)

Local Arguments skipn : simpl never.

Lemma fetch_frame_refl (w : World) : fetch_frame w w.
Proof. unfold fetch_frame. repeat split. Qed.

Lemma fetch_frame_trans (w1 w2 w3 : World) :
  fetch_frame w1 w2 -> fetch_frame w2 w3 -> fetch_frame w1 w3.
Proof.
  unfold fetch_frame.
  intros (A1 & A2 & A3 & A4 & A5 & A6 & A7 & A8 & A9)
         (B1 & B2 & B3 & B4 & B5 & B6 & B7 & B8 & B9).
  repeat split; congruence.
Qed.

(** What one run of the loop of [step] does when rows are pending: with a
    row ahead it stops on it, rebinding and executing on the way as often
    as result sets run dry; with no row ahead it ends exhausted. *)
Lemma step_loop_pending (fuel : nat) :
  forall (w : World) (rs : list (list value)),
    rows_pending w = Some rs ->
    (binding_remaining (bindingInput_ (this w)) < fuel)%nat ->
    exists w',
      fetch_frame w w' /\
      rowsFetched_ (this w') = rowsFetched_ (this w) /\
      match rs with
      | [] => step_loop fuel w = Ok false w' /\
              exhausted w' /\ rows_pending w' = Some []
      | row :: rest => step_loop fuel w = Ok true w' /\
                       rows_pending w' = Some rest /\
                       row_buffers (bindingOutput_ (this w')) = row
      end.
Proof.
  induction fuel as [|fuel IH]; intros w rs Hp Hf; [lia|].
  rewrite step_loop_S.
  match goal with
  | |- context [mbind bind_next_row ?k] =>
      remember (mbind bind_next_row k) as rest eqn:Hrest
  end.
  assert (Hcont : forall (W : World) (rs : list (list value)),
    rows_pending W = Some rs ->
    complete_ (this W) = true ->
    (binding_remaining (bindingInput_ (this W)) < S fuel)%nat ->
    exists w',
      fetch_frame W w' /\
      rowsFetched_ (this w') = rowsFetched_ (this W) /\
      match rs with
      | [] => rest W = Ok false w' /\
              exhausted w' /\ rows_pending w' = Some []
      | row :: rest0 => rest W = Ok true w' /\
                       rows_pending w' = Some rest0 /\
                       row_buffers (bindingOutput_ (this w')) = row
      end).
  { clear w rs Hp Hf. intros W rs Hp Hc Hf. subst rest.
    open_world W. destruct bindingInput_0 as [params i].
    unfold rows_pending, binding_remaining in *. simpl in *.
    destruct pStatement_0 as [s|]; [|discriminate].
    destruct s as [sql n md b rs0 a em en]. simpl in *. subst.
    destruct (skipn i params) as [|p ps] eqn:Hk.
    - simpl in Hp. injection Hp as <-.
      destruct (skipn_nil_nth_error _ _ Hk) as [Hn Hl].
      unfold bind_next_row. run. rewrite Hn. simpl.
      eexists. split; [apply fetch_frame_refl|].
      split; [reflexivity|]. split; [reflexivity|].
      split.
      + unfold exhausted, binding_remaining. simpl. auto.
      + unfold rows_pending. simpl. rewrite Hk. reflexivity.
    - simpl in Hp.
      destruct (server_execute conn_server0 conn_db0 sql p)
        as [[msg code|a1 rs1] d1] eqn:He; [discriminate|].
      destruct (rows_of rs1) as [l1|] eqn:Hl1; [|discriminate].
      destruct (rows_ahead conn_server0 sql d1 ps) as [l2|] eqn:Hl2;
        [|discriminate].
      destruct (skipn_cons_nth_error _ _ _ _ Hk) as [Hn Hk'].
      assert (Hi : (i < length params)%nat).
      { apply nth_error_Some. congruence. }
      unfold bind_next_row, execute, mysql_stmt_execute,
        mysql_stmt_affected_rows, mysql_stmt_store_result, throw_error,
        has_result.
      run. rewrite Hn. simpl. rewrite He. simpl.
      destruct pSpec_0; simpl;
        match goal with
        | |- context [step_loop fuel ?W0] =>
            destruct (IH W0 rs) as (w' & Hfr & Hrf & Hres);
              [ unfold rows_pending; simpl; rewrite Hk', Hl1, Hl2; exact Hp
              | unfold binding_remaining; simpl; lia
              | exists w'; split;
                [ unfold fetch_frame in *; simpl in *; exact Hfr
                | split; [exact Hrf | exact Hres] ] ]
        end. }
  open_world w. destruct bindingInput_0 as [params i].
  destruct complete_0.
  - unfold fetch_row. run.
    match goal with
    | |- context [rest ?W0] => destruct (Hcont W0 rs) as (w' & Hfr & Hrf & Hres)
    end; auto.
  - unfold rows_pending in Hp. simpl in Hp.
    destruct pStatement_0 as [s|]; [|discriminate].
    destruct s as [sql n md b [|[row|row|msg code] rs0] a em en];
      simpl in Hp.
    + unfold fetch_row, mysql_stmt_fetch. run.
      match goal with
      | |- context [rest ?W0] =>
          destruct (Hcont W0 rs) as (w' & Hfr & Hrf & Hres)
      end; auto.
      exists w'. split; [unfold fetch_frame in *; simpl in *; exact Hfr|].
      split; [exact Hrf|exact Hres].
    + destruct (rows_of rs0) as [l|] eqn:Hl; [|discriminate].
      destruct (rows_ahead conn_server0 sql conn_db0 (skipn i params))
        as [l2|] eqn:Hl2; [|discriminate].
      injection Hp as <-. simpl.
      unfold fetch_row, mysql_stmt_fetch. run.
      eexists. split; [|split; [|split; [reflexivity|]]].
      * unfold fetch_frame. simpl. repeat split.
      * reflexivity.
      * unfold rows_pending. simpl. rewrite Hl, Hl2. auto.
    + destruct (rows_of rs0) as [l|] eqn:Hl; [|discriminate].
      destruct (rows_ahead conn_server0 sql conn_db0 (skipn i params))
        as [l2|] eqn:Hl2; [|discriminate].
      injection Hp as <-. simpl.
      unfold fetch_row, mysql_stmt_fetch. run.
      eexists. split; [|split; [|split; [reflexivity|]]].
      * unfold fetch_frame. simpl. repeat split.
      * reflexivity.
      * unfold rows_pending. simpl. rewrite Hl, Hl2. auto.
    + discriminate.
Qed.

Lemma step_pending (w : World) (rs : list (list value)) :
  rows_pending w = Some rs ->
  exists w',
    fetch_frame w w' /\
    match rs with
    | [] => step w = Ok false w' /\
            exhausted w' /\ rows_pending w' = Some [] /\
            rowsFetched_ (this w') = rowsFetched_ (this w)
    | row :: rest => step w = Ok true w' /\
                     rows_pending w' = Some rest /\
                     row_buffers (bindingOutput_ (this w')) = row /\
                     rowsFetched_ (this w') = u64 (rowsFetched_ (this w) + 1)
    end.
Proof.
  intros Hp.
  destruct (step_loop_pending
              (S (binding_remaining (bindingInput_ (this w)))) w rs Hp)
    as (w1 & Hfr & Hrf & Hres); [lia|].
  unfold step, mbind, get_this.
  destruct rs as [|row rest].
  - destruct Hres as (Hrun & Hex & Hp1). rewrite Hrun.
    exists w1. unfold ret. auto.
  - destruct Hres as (Hrun & Hp1 & Hrow). rewrite Hrun.
    open_world w1. eexists. split; [|split; [reflexivity|]].
    + unfold fetch_frame in *. simpl in *. exact Hfr.
    + simpl. unfold rows_pending in *. simpl in *.
      split; [exact Hp1|]. split; [exact Hrow|]. rewrite Hrf. reflexivity.
Qed.

(** ** The loops end *)

Lemma nth_error_skipn_cons {A} (l : list A) (i : nat) (x : A) :
  nth_error l i = Some x -> skipn i l = x :: skipn (S i) l.
Proof.
  revert l. induction i as [|i IH]; intros [|h l] H; simpl in *;
    try discriminate.
  - injection H as ->. reflexivity.
  - apply IH. exact H.
Qed.

(** The loop of [bind] has fuel for every parameter row. *)
Lemma bind_loop_total (fuel : nat) :
  forall w : World,
    (binding_remaining (bindingInput_ (this w)) < fuel)%nat ->
    bind_loop fuel w <> OutOfFuel.
Proof.
  induction fuel as [|fuel IH]; intros w Hf; [lia|].
  rewrite bind_loop_S. open_world w. destruct bindingInput_0 as [params i].
  unfold binding_remaining in Hf. simpl in Hf.
  unfold bind_next_row. run.
  destruct (nth_error params i) as [p|] eqn:Hn; simpl; [|discriminate].
  assert (Hi : (i < length params)%nat).
  { apply nth_error_Some. congruence. }
  destruct pStatement_0 as [s|]; simpl; [|discriminate].
  destruct s as [sql n md b rs a em en].
  unfold execute, mysql_stmt_execute, mysql_stmt_affected_rows,
    mysql_stmt_store_result, throw_error, has_result.
  run.
  destruct (server_execute conn_server0 conn_db0 sql p)
    as [[msg code|a1 rs1] d1]; simpl; [discriminate|].
  destruct pSpec_0; simpl; apply IH; unfold binding_remaining; simpl; lia.
Qed.

Theorem bind_total (params : list (list value)) (w : World) :
  bind params w <> OutOfFuel.
Proof.
  open_world w. unfold bind, bindingInput_setup, init_binding, has_result.
  run. destruct pSpec_0; simpl; [discriminate|].
  match goal with
  | |- context [bind_loop ?f ?W0] =>
      pose proof (bind_loop_total f W0) as H;
      destruct (bind_loop f W0) as [[] w'|e w'|]
  end.
  - destruct w'. discriminate.
  - discriminate.
  - exfalso. apply H; [|reflexivity].
    unfold binding_remaining. simpl. lia.
Qed.

(** The loop of [step] has fuel for every parameter row; when it stops on
    a row, the server has one answer less to give. *)
Lemma step_loop_budget (fuel : nat) :
  forall w : World,
    (binding_remaining (bindingInput_ (this w)) < fuel)%nat ->
    match step_loop fuel w with
    | Ok true w' =>
        (fetch_budget w' < fetch_budget w)%nat /\
        rowsFetched_ (this w') = rowsFetched_ (this w)
    | Ok false _ => True
    | Throw _ _ => True
    | OutOfFuel => False
    end.
Proof.
  induction fuel as [|fuel IH]; intros w Hf; [lia|].
  rewrite step_loop_S.
  match goal with
  | |- context [mbind bind_next_row ?k] =>
      remember (mbind bind_next_row k) as rest eqn:Hrest
  end.
  assert (Hcont : forall W : World,
    complete_ (this W) = true ->
    (binding_remaining (bindingInput_ (this W)) < S fuel)%nat ->
    match rest W with
    | Ok true w' =>
        (fetch_budget w' < fetch_budget W)%nat /\
        rowsFetched_ (this w') = rowsFetched_ (this W)
    | Ok false _ => True
    | Throw _ _ => True
    | OutOfFuel => False
    end).
  { clear w Hf. intros W Hc Hf. subst rest.
    open_world W. destruct bindingInput_0 as [params i].
    unfold binding_remaining in Hf. simpl in Hf. subst.
    unfold bind_next_row. run.
    destruct (nth_error params i) as [p|] eqn:Hn; simpl; [|exact I].
    assert (Hi : (i < length params)%nat).
    { apply nth_error_Some. congruence. }
    destruct pStatement_0 as [s|]; simpl; [|exact I].
    destruct s as [sql n md b rs a em en].
    unfold execute, mysql_stmt_execute, mysql_stmt_affected_rows,
      mysql_stmt_store_result, throw_error, has_result.
    run.
    destruct (server_execute conn_server0 conn_db0 sql p)
      as [[msg code|a1 rs1] d1] eqn:He; simpl; [exact I|].
    destruct pSpec_0; simpl;
      match goal with
      | |- context [step_loop fuel ?W0] =>
          pose proof (IH W0) as HW;
          destruct (step_loop fuel W0) as [[|] w'|e w'|]
      end;
      try exact I;
      try (apply HW; unfold binding_remaining; simpl; lia);
      (destruct HW as [HW Hrf]; [unfold binding_remaining; simpl; lia|];
       split; [|exact Hrf];
       unfold fetch_budget in *; simpl in *;
       rewrite (nth_error_skipn_cons _ _ _ Hn); simpl; rewrite He;
       exact HW). }
  open_world w. destruct bindingInput_0 as [params i].
  destruct complete_0.
  - unfold fetch_row. run. apply Hcont; [reflexivity|exact Hf].
  - unfold fetch_row, mysql_stmt_fetch, throw_error. run.
    destruct pStatement_0 as [s|]; simpl; [|exact I].
    destruct s as [sql n md b [|[row|row|msg code] rs0] a em en]; simpl.
    + match goal with
      | |- context [rest ?W0] =>
          pose proof (Hcont W0 eq_refl Hf) as HW;
          destruct (rest W0) as [[|] w'|e w'|]
      end; try exact I; try exact HW.
    + unfold fetch_budget. simpl. split; [lia|reflexivity].
    + unfold fetch_budget. simpl. split; [lia|reflexivity].
    + exact I.
Qed.

Theorem step_total (w : World) : step w <> OutOfFuel.
Proof.
  unfold step, mbind, get_this.
  pose proof (step_loop_budget
                (S (binding_remaining (bindingInput_ (this w)))) w) as H.
  destruct (step_loop _ w) as [[|] w'|e w'|].
  - destruct w'. discriminate.
  - discriminate.
  - discriminate.
  - exfalso. apply H. lia.
Qed.

Lemma step_budget (w w' : World) :
  step w = Ok true w' -> (fetch_budget w' < fetch_budget w)%nat.
Proof.
  unfold step, mbind, get_this.
  pose proof (step_loop_budget
                (S (binding_remaining (bindingInput_ (this w)))) w) as H.
  destruct (step_loop _ w) as [[|] w1|e w1|]; try discriminate.
  destruct H as [H _]; [lia|].
  open_world w1. unfold ret. intros E. injection E as <-.
  unfold fetch_budget in *. simpl in *. exact H.
Qed.

(** ** The loop of fetch *)

Lemma fetch_loop_S (fuel : nat) (n_max i n : Z) (out : Table) (w : World) :
  fetch_loop (S fuel) n_max i n out w =
  if (i >=? n) && (n_max >? 0) then Ok (i, n, out) w else
  match step w with
  | Ok got w1 =>
      if negb got then Ok (i, n, out) w1 else
      let n' := if i >=? n then static_cast_int (n * 2) else n in
      let out1 := if i >=? n then df_resize out n' else out in
      let out2 := copy_row (this w1) out1 i in
      let i' := static_cast_int (i + 1) in
      match (if Z.rem i' 1000 =? 0 then checkUserInterrupt else ret tt) w1 with
      | Ok _ w2 => fetch_loop fuel n_max i' n' out2 w2
      | Throw e w2 => Throw e w2
      | OutOfFuel => OutOfFuel
      end
  | Throw e w1 => Throw e w1
  | OutOfFuel => OutOfFuel
  end.
Proof.
  unfold fetch_loop at 1. fold (@fetch_loop value db MariaFieldType).
  destruct ((i >=? n) && (n_max >? 0)); [reflexivity|].
  unfold mbind at 1. destruct (step w) as [got w1|e w1|]; try reflexivity.
  destruct got; reflexivity.
Qed.

Lemma interrupt_check_quiet (c : bool) (w : World) :
  interrupt_pending w = false ->
  exists w',
    (if c then checkUserInterrupt else ret tt) w = Ok tt w' /\
    this w' = this w /\ conn w' = conn w /\ interrupt_pending w' = false.
Proof.
  intros Hi. destruct w as [r c0 tr ip]. simpl in Hi. subst ip.
  destruct c; unfold checkUserInterrupt; run; eexists; repeat split.
Qed.

Lemma rows_pending_ext (w w' : World) :
  this w' = this w -> conn w' = conn w -> rows_pending w' = rows_pending w.
Proof. intros H1 H2. unfold rows_pending. rewrite H1, H2. reflexivity. Qed.

Lemma fetch_frame_ext (w w' : World) :
  this w' = this w -> conn w' = conn w ->
  interrupt_pending w' = interrupt_pending w -> fetch_frame w w'.
Proof.
  intros H1 H2 H3. unfold fetch_frame. rewrite H1, H2, H3. repeat split.
Qed.

Lemma exhausted_ext (w w' : World) :
  this w' = this w -> exhausted w -> exhausted w'.
Proof. intros H1. unfold exhausted. rewrite H1. auto. Qed.

Lemma static_cast_int_id (x : Z) :
  INT_MIN <= x <= INT_MAX -> static_cast_int x = x.
Proof.
  unfold static_cast_int, INT_MIN, INT_MAX. intros H.
  rewrite Z.mod_small by lia. lia.
Qed.

Lemma u64_small (x : Z) : 0 <= x < 2 ^ 64 -> u64 x = x.
Proof. intros H. unfold u64. apply Z.mod_small. exact H. Qed.

(** The loop of [fetch] when only rows are pending and no interrupt is:
    it takes [k] rows, all of them for a negative [n_max] and at most as
    many as fit below [n] otherwise, writes them at rows [i], [i+1], ... of
    the table and leaves the rows before alone. *)
Lemma fetch_loop_pending (rs : list (list value)) :
  forall (fuel : nat) (n_max i n : Z) (out : Table) (w : World),
    rows_pending w = Some rs ->
    interrupt_pending w = false ->
    0 <= rowsFetched_ (this w) < 2 ^ 64 ->
    (length rs < fuel)%nat ->
    n_max <> 0 -> 0 <= i <= n -> n <= INT_MAX ->
    (0 < n_max -> n = n_max) ->
    (n_max < 0 -> 0 < n /\ i + Z.of_nat (length rs) < 2 ^ 30) ->
    df_wf out -> df_nrow out = n ->
    exists (k : nat) (n' : Z) (out' : Table) (w' : World),
      k = (if n_max >? 0 then Nat.min (length rs) (Z.to_nat (n - i))
           else length rs) /\
      fetch_loop fuel n_max i n out w = Ok (i + Z.of_nat k, n', out') w' /\
      i + Z.of_nat k <= n' /\
      df_wf out' /\ df_nrow out' = n' /\
      df_names out' = df_names out /\
      df_types out' = df_types out /\
      df_classed out' = df_classed out /\
      length (df_cols out') = length (df_cols out) /\
      rows_pending w' = Some (skipn k rs) /\
      (n_max < 0 \/ i + Z.of_nat k < n -> exhausted w') /\
      rowsFetched_ (this w') = u64 (rowsFetched_ (this w) + Z.of_nat k) /\
      fetch_frame w w' /\
      (forall a j, (a < Z.to_nat i)%nat ->
                   df_cell out' a j = df_cell out a j) /\
      (forall a j, (a < k)%nat ->
                   (j < Z.to_nat (nCols_ (this w)))%nat ->
                   (j < length (df_cols out))%nat ->
                   df_cell out' (Z.to_nat i + a) j
                   = Some (nth_error (nth a rs []) j)).
Proof.
  induction rs as [|row rest IH];
    intros fuel n_max i n out w Hp Hip Hrf Hfuel Hnz Hi Hn Hpos Hneg Hwf Hnr;
    (destruct fuel as [|fuel]; [simpl in Hfuel; lia|]);
    rewrite fetch_loop_S;
    destruct ((i >=? n) && (n_max >? 0)) eqn:Hbrk.
  - (* the table is full *)
    apply andb_true_iff in Hbrk. destruct Hbrk as [Hge Hgt].
    apply Z.geb_le in Hge. rewrite Hgt. apply Z.gtb_lt in Hgt.
    exists 0%nat, n, out, w. simpl.
    rewrite !Z.add_0_r. rewrite (u64_small _ Hrf).
    conjuncts; first [reflexivity | assumption | lia
                     | apply fetch_frame_refl].
  - (* nothing is pending *)
    destruct (step_pending w [] Hp) as (w1 & Hfr & Hrun & Hex & Hp1 & Hrf1).
    rewrite Hrun. simpl negb. cbv iota.
    exists 0%nat, n, out, w1. simpl.
    rewrite !Z.add_0_r. rewrite Hrf1.
    conjuncts;
      first [reflexivity | assumption | lia
            | destruct (n_max >? 0); reflexivity
            | intros _; exact Hex
            | symmetry; apply u64_small; exact Hrf ].
  - (* the table is full, rows are pending *)
    apply andb_true_iff in Hbrk. destruct Hbrk as [Hge Hgt].
    apply Z.geb_le in Hge. rewrite Hgt. apply Z.gtb_lt in Hgt.
    assert (Hk : Z.to_nat (n - i) = 0%nat) by lia. rewrite Hk.
    rewrite Nat.min_0_r.
    exists 0%nat, n, out, w. simpl.
    rewrite !Z.add_0_r. rewrite (u64_small _ Hrf).
    conjuncts; first [reflexivity | assumption | lia
                     | apply fetch_frame_refl].
  - (* one more row *)
    destruct (step_pending w (row :: rest) Hp)
      as (w1 & Hfr & Hrun & Hp1 & Hrow & Hrf1).
    rewrite Hrun. simpl negb. cbv iota zeta.
    assert (Hfr1 := Hfr).
    destruct Hfr1 as (_ & _ & Hnc1 & _ & _ & _ & _ & _ & Hip1).
    remember (if i >=? n then static_cast_int (n * 2) else n) as n1 eqn:Hn1.
    remember (if i >=? n then df_resize out n1 else out) as out1 eqn:Hout1.
    assert (Hlt : i < n1 /\ n1 <= INT_MAX /\ (0 < n_max -> n1 = n_max) /\
                  (0 < n_max -> n1 = n)).
    { subst n1. destruct (Z.geb_spec i n) as [Hge|Hlt].
      - (* doubling: only when every row is asked for *)
        simpl in Hbrk. assert (Hm : n_max < 0).
        { destruct (Z.gtb_spec n_max 0); [discriminate|lia]. }
        destruct (Hneg Hm) as [Hn0 Hsz]. simpl length in Hsz.
        rewrite static_cast_int_id by (unfold INT_MIN, INT_MAX; lia).
        unfold INT_MAX. lia.
      - conjuncts; auto; lia. }
    assert (Ho1 : df_wf out1 /\ df_nrow out1 = n1 /\
                  df_names out1 = df_names out /\
                  df_types out1 = df_types out /\
                  df_classed out1 = df_classed out /\
                  length (df_cols out1) = length (df_cols out) /\
                  forall a j, (a < Z.to_nat i)%nat ->
                              df_cell out1 a j = df_cell out a j).
    { subst out1. destruct (i >=? n) eqn:Hge.
      - conjuncts; try reflexivity.
        + apply df_resize_wf. lia.
        + simpl. apply length_map.
        + intros a0 j Ha. apply df_resize_cell; [assumption|lia|lia].
      - conjuncts; auto. lia. }
    clear Hn1 Hout1.
    destruct Hlt as (Hlt & Hmax & Hpos1 & Hsame).
    destruct Ho1 as (Wf1 & Nr1 & Nm1 & Ty1 & Cl1 & Len1 & Old1).
    destruct (copy_row_fields (this w1) out1 i) as (Cn & Ct & Cr & Cc & Cwf).
    assert (Hi1 : static_cast_int (i + 1) = i + 1).
    { apply static_cast_int_id. unfold INT_MIN, INT_MAX in *. lia. }
    rewrite Hi1.
    destruct (interrupt_check_quiet (Z.rem (i + 1) 1000 =? 0) w1)
      as (w2 & Hchk & Ht2 & Hc2 & Hi2); [congruence|].
    rewrite Hchk.
    destruct (IH fuel n_max (i + 1) n1 (copy_row (this w1) out1 i) w2)
      as (k & n' & out' & w' & Hk & Hrun' & Hle & Hwf' & Hnr' & Hnm & Hty
          & Hcl & Hlen & Hp' & Hex' & Hrf' & Hfr' & Hold & Hnew).
    + rewrite (rows_pending_ext w1 w2); assumption.
    + assumption.
    + rewrite Ht2, Hrf1. apply u64_range.
    + simpl in Hfuel. lia.
    + assumption.
    + lia.
    + assumption.
    + assumption.
    + intros Hm. destruct (Hneg Hm) as [_ Hsz]. simpl length in Hsz. lia.
    + apply Cwf. assumption.
    + rewrite Cr. assumption.
    + exists (S k), n', out', w'. conjuncts.
      * subst k. simpl length.
        destruct (Z.gtb_spec n_max 0) as [Hg|Hg]; [|reflexivity].
        rewrite (Hsame Hg). lia.
      * replace (i + Z.of_nat (S k)) with (i + 1 + Z.of_nat k) by lia.
        exact Hrun'.
      * lia.
      * assumption.
      * assumption.
      * congruence.
      * congruence.
      * congruence.
      * rewrite Hlen, copy_row_ncols. assumption.
      * rewrite skipn_cons. exact Hp'.
      * intros H. apply Hex'.
        destruct (Z.lt_ge_cases n_max 0) as [Hm|Hm]; [left; exact Hm|].
        right. destruct H as [H|H]; [lia|].
        rewrite Hsame by lia. lia.
      * rewrite Hrf', Ht2, Hrf1, u64_add_l. f_equal. lia.
      * eapply fetch_frame_trans; [exact Hfr|].
        eapply fetch_frame_trans; [|exact Hfr'].
        apply fetch_frame_ext; congruence.
      * intros a0 j Ha. rewrite Hold by lia.
        rewrite copy_row_cell_old by lia. apply Old1. exact Ha.
      * intros a0 j Ha Hj Hjl. destruct a0 as [|a0].
        -- rewrite Nat.add_0_r. rewrite Hold by lia.
           rewrite copy_row_cell_new; try assumption; try lia.
           simpl. rewrite Hrow. reflexivity.
        -- replace (Z.to_nat i + S a0)%nat with (Z.to_nat (i + 1) + a0)%nat
             by lia.
           rewrite Hnew; try lia.
           ++ reflexivity.
           ++ rewrite Ht2. lia.
           ++ rewrite copy_row_ncols. lia.
Qed.

Lemma interrupt_check_cases (c : bool) (w : World) :
  (exists w', (if c then checkUserInterrupt else ret tt) w = Ok tt w' /\
              this w' = this w /\ conn w' = conn w) \/
  (exists w', (if c then checkUserInterrupt else ret tt) w
              = Throw Interrupted w').
Proof.
  destruct w as [r c0 tr [|]]; destruct c; unfold checkUserInterrupt; run;
    first [ left; eexists; repeat split; reflexivity
          | right; eexists; reflexivity ].
Qed.

Lemma fetch_budget_ext (w w' : World) :
  this w' = this w -> conn w' = conn w -> fetch_budget w' = fetch_budget w.
Proof. intros H1 H2. unfold fetch_budget. rewrite H1, H2. reflexivity. Qed.

(** Whatever the server answers, the loop of [fetch] ends within the
    fuel that [fetch_budget] asks for. *)
Lemma fetch_loop_total (fuel : nat) :
  forall (n_max i n : Z) (out : Table) (w : World),
    (fetch_budget w < fuel)%nat ->
    fetch_loop fuel n_max i n out w <> OutOfFuel.
Proof.
  induction fuel as [|fuel IH]; intros n_max i n out w Hf; [lia|].
  rewrite fetch_loop_S.
  destruct ((i >=? n) && (n_max >? 0)); [discriminate|].
  pose proof (step_total w) as Ht. pose proof (step_budget w) as Hb.
  destruct (step w) as [[|] w1|e w1|]; try discriminate; [|contradiction].
  cbn [negb]. cbv iota zeta.
  specialize (Hb w1 eq_refl).
  destruct (interrupt_check_cases
              (Z.rem (static_cast_int (i + 1)) 1000 =? 0) w1)
    as [(w2 & Hc & Ht2 & Hc2)|(w2 & Hc)]; rewrite Hc; [|discriminate].
  apply IH. rewrite (fetch_budget_ext w1 w2 Ht2 Hc2). lia.
Qed.

Theorem fetch_total (fuel : nat) (n_max : Z) (w : World) :
  (fetch_budget w < fuel)%nat -> fetch fuel n_max w <> OutOfFuel.
Proof.
  intros Hf. unfold fetch, mbind, get_this.
  destruct (negb (bound_ (this w))); [discriminate|].
  rewrite active_current.
  destruct (negb (current w)); [discriminate|].
  destruct (negb (has_result (this w))).
  - destruct (length (names_ (this w)) =? 0)%nat.
    + destruct w. discriminate.
    + discriminate.
  - destruct ((if n_max <? 0 then 100 else n_max) =? 0); [discriminate|].
    pose proof (fetch_loop_total fuel n_max 0
                  (if n_max <? 0 then 100 else n_max)
                  (df_create (types_ (this w)) (names_ (this w))
                             (if n_max <? 0 then 100 else n_max)) w Hf) as H.
    destruct (fetch_loop _ _ _ _ _ w) as [[[i n] out] w'|e w'|];
      [discriminate|discriminate|contradiction].
Qed.

(** ** fetch *)

(** C4: on a bound, active statement with a result set whose pending rows
    the server delivers without error, [fetch(n_max)] with [n_max >= 0]
    returns at most [n_max] rows, the first ones pending, and fewer than
    [n_max] only with the statement exhausted; with a negative [n_max] it
    returns every pending row and leaves the statement exhausted. Either
    way the table is trimmed to the rows produced: every column has exactly
    that many cells, and cell [j] of row [a] is field [j] of the [a]-th
    pending row. Any fuel above the number of pending rows gives this
    result. *)
Theorem fetch_rows (fuel : nat) (n_max : Z) (w : World)
    (rs : list (list value)) :
  bound_ (this w) = true ->
  active w = Ok true w ->
  has_result (this w) = true ->
  rows_pending w = Some rs ->
  interrupt_pending w = false ->
  0 <= rowsFetched_ (this w) < 2 ^ 64 ->
  INT_MIN <= n_max <= INT_MAX ->
  (n_max < 0 -> Z.of_nat (length rs) < 2 ^ 30) ->
  (length rs < fuel)%nat ->
  exists (out : Table) (w' : World),
    fetch fuel n_max w = Ok out w' /\
    let k := if n_max <? 0 then length rs
             else Nat.min (length rs) (Z.to_nat n_max) in
    df_nrow out = Z.of_nat k /\
    Forall (fun col => length col = k) (df_cols out) /\
    (0 <= n_max ->
     df_nrow out <= n_max /\ (df_nrow out < n_max -> exhausted w')) /\
    (n_max < 0 -> df_nrow out = Z.of_nat (length rs) /\ exhausted w') /\
    rows_pending w' = Some (skipn k rs) /\
    rowsFetched_ (this w') = u64 (rowsFetched_ (this w) + Z.of_nat k) /\
    df_names out = names_ (this w) /\
    df_types out = types_ (this w) /\
    (forall a j, (a < k)%nat ->
                 (j < Z.to_nat (nCols_ (this w)))%nat ->
                 (j < length (types_ (this w)))%nat ->
                 df_cell out a j = Some (nth_error (nth a rs []) j)).
Proof.
  intros Hb Ha Hr Hp Hip Hrf Hnm Hsz Hfuel.
  unfold fetch, mbind, get_this. rewrite Hb. cbn [negb]. cbv beta iota.
  rewrite Ha. unfold ret, throw. cbn [negb]. cbv beta iota.
  rewrite Hr. cbn [negb]. cbv beta iota.
  remember (if n_max <? 0 then 100 else n_max) as n eqn:Hn.
  destruct (Z.eqb_spec n 0) as [Hn0|Hn0].
  - (* fetch(0) *)
    assert (Hz : n_max = 0).
    { destruct (Z.ltb_spec n_max 0); lia. }
    subst n_max. simpl in Hn. subst n. simpl.
    exists (df_create (types_ (this w)) (names_ (this w)) 0), w.
    rewrite Nat.min_0_r. simpl.
    conjuncts; try reflexivity; try lia.
    + apply Forall_forall. intros col Hin.
      apply in_map_iff in Hin. destruct Hin as (t & <- & _). reflexivity.
    + exact Hp.
    + rewrite Z.add_0_r. symmetry. apply u64_small. exact Hrf.
  - assert (Hnz : n_max <> 0).
    { intros ->. simpl in Hn. lia. }
    assert (Hn1 : 0 < n /\ n <= INT_MAX).
    { subst n. unfold INT_MAX in *. destruct (Z.ltb_spec n_max 0); lia. }
    destruct (fetch_loop_pending rs fuel n_max 0 n
                (df_create (types_ (this w)) (names_ (this w)) n) w)
      as (k & n' & out' & w' & Hk & Hrun & Hle & Hwf' & Hnr' & Hnam & Hty
          & Hcl & Hlen & Hp' & Hex & Hrf' & Hfr & Hold & Hnew);
      try assumption; try lia.
    + intros H. subst n. destruct (Z.ltb_spec n_max 0); lia.
    + apply df_create_wf. lia.
    + reflexivity.
    + rewrite Hrun. simpl in Hle, Hrun, Hk, Hex, Hnew.
      rewrite Z.sub_0_r in Hk.
      set (out := if Z.of_nat k <? n' then df_resize out' (Z.of_nat k)
                  else out').
      assert (Ho : df_wf out /\ df_nrow out = Z.of_nat k /\
                   df_names out = df_names out' /\
                   df_types out = df_types out' /\
                   forall a j, (a < k)%nat ->
                               df_cell out a j = df_cell out' a j).
      { subst out. destruct (Z.ltb_spec (Z.of_nat k) n') as [Hlt|Hge].
        - conjuncts; try reflexivity.
          + apply df_resize_wf. lia.
          + intros a j Hak. apply df_resize_cell; [assumption|lia|lia].
        - conjuncts; auto. lia. }
      destruct Ho as (Wf & Nr & Nm & Ty & Cells).
      assert (Hkk : k = (if n_max <? 0 then length rs
                         else Nat.min (length rs) (Z.to_nat n_max))).
      { rewrite Hk. subst n.
        destruct (Z.ltb_spec n_max 0); destruct (Z.gtb_spec n_max 0);
          try lia; reflexivity. }
      exists (df_s3 out (types_ (this w))), w'. split; [reflexivity|].
      cbv zeta. rewrite <- Hkk. simpl.
      conjuncts; try assumption.
      * destruct Wf as [_ Wf]. rewrite Nr in Wf.
        rewrite Nat2Z.id in Wf. exact Wf.
      * intros H0. assert (Hn' : n = n_max).
        { subst n. destruct (Z.ltb_spec n_max 0); lia. }
        split; [rewrite Nr, Hkk; destruct (Z.ltb_spec n_max 0); lia|].
        intros Hlt. apply Hex. right. lia.
      * intros H0. split; [|apply Hex; left; exact H0].
        rewrite Nr, Hkk. destruct (Z.ltb_spec n_max 0); [reflexivity|lia].
      * rewrite Nm, Hnam. reflexivity.
      * rewrite Ty, Hty. reflexivity.
      * intros a j Hak Hj Hjl.
        change (df_cell out a j = Some (nth_error (nth a rs []) j)).
        rewrite Cells by exact Hak.
        apply (Hnew a j); [exact Hak|exact Hj|].
        simpl. rewrite length_map. exact Hjl.
Qed.

(** * Further properties of the controller *)

(** ** Construction and destruction *)

(** X1: the constructor either gets a statement handle and registers the
    new object as the connection's current result, unbound and with no
    counts to report, or, when the client library is out of memory, stops
    with "Out of memory" and leaves the connection's current result as it
    was. Once the new object is registered, [fetch] on any other bound
    result object of the same connection stops with "Inactive result
    set". *)
Theorem new_result_is_current (self : nat) (nc np : Z)
    (c : MariaConnection) (tr : list event) (ip : bool) :
  (server_stmt_init (conn_server c) (conn_db c) = true ->
   exists w : World,
     MariaResult_new self nc np c tr ip = Ok tt w /\
     conn w = set_current_result (Some self) c /\
     trace w = EvStmtInit :: tr /\
     active w = Ok true w /\
     bound_ (this w) = false /\
     has_result (this w) = false /\
     rows_affected w = Ok NA_INTEGER w /\
     rows_fetched w = Ok 0 w /\
     forall (w0 : World) (fuel : nat) (n_max : Z),
       conn w0 = conn w -> self_ (this w0) <> self ->
       bound_ (this w0) = true ->
       fetch fuel n_max w0 = Throw (Stop "Inactive result set") w0) /\
  (server_stmt_init (conn_server c) (conn_db c) = false ->
   exists w : World,
     MariaResult_new self nc np c tr ip = Throw (Stop "Out of memory") w /\
     conn w = c /\ pStatement_ (this w) = None).
Proof.
  destruct c as [srv d cur]. simpl.
  unfold MariaResult_new, mysql_stmt_init. run.
  split; intros Hi; rewrite Hi; simpl.
  - eexists. split; [reflexivity|]. simpl.
    do 2 (split; [reflexivity|]).
    split; [rewrite active_current; unfold current; simpl;
            rewrite Nat.eqb_refl; reflexivity|].
    do 4 (split; [reflexivity|]).
    intros w0 fuel n_max Hc Hs Hb.
    unfold fetch, mbind, get_this. rewrite Hb. cbn [negb]. cbv beta iota.
    rewrite active_current. unfold current. rewrite Hc. simpl.
    destruct (Nat.eqb_spec self (self_ (this w0))) as [E|E];
      [congruence|reflexivity].
  - eexists. split; [reflexivity|]. split; reflexivity.
Qed.

(** X2: the destructor never throws. It leaves the connection without a
    current result and the object without metadata and without statement
    handle, having released each of the two exactly when the object still
    held it: after [close()] it releases nothing. *)
Theorem delete_releases (w : World) :
  exists w',
    MariaResult_delete w = Ok tt w' /\
    conn_current_result (conn w') = None /\
    pSpec_ (this w') = None /\
    pStatement_ (this w') = None /\
    count_events is_free_result (trace w') =
      (count_events is_free_result (trace w)
       + if has_result (this w) then 1 else 0)%nat /\
    count_events is_stmt_close (trace w') =
      (count_events is_stmt_close (trace w)
       + match pStatement_ (this w) with Some _ => 1 | None => 0 end)%nat /\
    forall w1, close w = Ok tt w1 ->
      exists w2, MariaResult_delete w1 = Ok tt w2 /\
                 trace w2 = EvAutocommit :: trace w1.
Proof.
  open_world w.
  unfold MariaResult_delete, close, has_result, autocommit,
    mysql_free_result, mysql_stmt_close.
  run.
  destruct pSpec_0; destruct pStatement_0; simpl;
    eexists; (split; [reflexivity|]); simpl; unfold count_events; simpl;
    (do 3 (split; [reflexivity|])); (split; [lia|]); (split; [lia|]);
    intros w1 E; injection E as <-; simpl;
    eexists; split; reflexivity.
Qed.

(** ** send_query: the other ways it ends *)

(** X3: when the server rejects the SQL text, [send_query] throws the
    server's message and code right after the prepare: nothing is executed,
    the statement is not bound by it, and no metadata is taken or cached. *)
Theorem send_query_rejected
    (vt : Z -> bool -> MariaFieldType) (sql : string) (w : World)
    (s : MYSQL_STMT) (msg : string) (code : Z) :
  pStatement_ (this w) = Some s ->
  server_prepare (conn_server (conn w)) (conn_db (conn w)) sql
    = PrepareError msg code ->
  exists w',
    send_query vt sql w = Throw (ProtocolError msg code) w' /\
    trace w' = EvPrepare sql :: trace w /\
    conn w' = conn w /\
    bound_ (this w') = bound_ (this w) /\
    pSpec_ (this w') = pSpec_ (this w) /\
    nParams_ (this w') = nParams_ (this w) /\
    names_ (this w') = names_ (this w) /\
    types_ (this w') = types_ (this w).
Proof.
  intros Hs Hp. open_world w. subst.
  unfold send_query, mysql_stmt_prepare, throw_error. run.
  rewrite Hp. destruct s as [sql0 n0 md0 b0 rs0 a0 em en]. simpl.
  eexists. split; [reflexivity|]. simpl. repeat split.
Qed.

(** X4: when the prepared statement takes parameters, [send_query]
    executes nothing and does not bind: it records the parameter count and
    the metadata, and a [fetch] on the still unbound statement stops with
    "Query needs to be bound before fetching". *)
Theorem send_query_with_params
    (vt : Z -> bool -> MariaFieldType) (sql : string) (w : World)
    (s : MYSQL_STMT) (n : Z) (md : option (list MYSQL_FIELD)) :
  pStatement_ (this w) = Some s ->
  server_prepare (conn_server (conn w)) (conn_db (conn w)) sql
    = PrepareOk n md ->
  static_cast_int n <> 0 ->
  exists w',
    send_query vt sql w = Ok tt w' /\
    trace w' = EvPrepare sql :: trace w /\
    conn w' = conn w /\
    nParams_ (this w') = static_cast_int n /\
    pSpec_ (this w') = md /\
    bound_ (this w') = bound_ (this w) /\
    complete_ (this w') = complete_ (this w) /\
    rowsAffected_ (this w') = rowsAffected_ (this w) /\
    (bound_ (this w) = false ->
     forall fuel n_max,
       fetch fuel n_max w' =
       Throw (Stop "Query needs to be bound before fetching") w').
Proof.
  intros Hs Hp Hn. open_world w. subst.
  unfold send_query, mysql_stmt_prepare, mysql_stmt_param_count,
    mysql_stmt_result_metadata, cache_metadata, bindingOutput_setup,
    throw_error, has_result.
  run. rewrite Hp. destruct s as [sql0 n0 md0 b0 rs0 a0 em en]. simpl.
  destruct (Z.eqb_spec (static_cast_int n) 0) as [E|_]; [contradiction|].
  simpl.
  destruct md as [fields|]; simpl;
    (eexists; split; [reflexivity|]; simpl;
     do 7 (split; [reflexivity|]);
     intros Hb fuel n_max; subst; reflexivity).
Qed.

(** X5: when the statement has no parameters and its immediate execution
    fails, [send_query] throws the server's message and code after that one
    execution; the statement stays as unbound as it was, is not complete,
    and although the metadata pointer is set, no column name or type is
    cached. *)
Theorem send_query_execute_fails
    (vt : Z -> bool -> MariaFieldType) (sql : string) (w : World)
    (s : MYSQL_STMT) (md : option (list MYSQL_FIELD))
    (msg : string) (code : Z) (d' : db) :
  pStatement_ (this w) = Some s ->
  server_prepare (conn_server (conn w)) (conn_db (conn w)) sql
    = PrepareOk 0 md ->
  server_execute (conn_server (conn w)) (conn_db (conn w)) sql (stmt_bind s)
    = (ExecError msg code, d') ->
  exists w',
    send_query vt sql w = Throw (ProtocolError msg code) w' /\
    trace w' = EvExecute sql (stmt_bind s) :: EvPrepare sql :: trace w /\
    conn_db (conn w') = d' /\
    bound_ (this w') = bound_ (this w) /\
    complete_ (this w') = false /\
    pSpec_ (this w') = md /\
    names_ (this w') = names_ (this w) /\
    types_ (this w') = types_ (this w) /\
    rowsAffected_ (this w') = rowsAffected_ (this w).
Proof.
  intros Hs Hp He. open_world w. subst.
  unfold send_query, mysql_stmt_prepare, mysql_stmt_param_count,
    mysql_stmt_result_metadata, execute, mysql_stmt_execute, throw_error.
  run. rewrite Hp. destruct s as [sql0 n0 md0 b0 rs0 a0 em en].
  simpl in *. change (static_cast_int 0) with 0. simpl. rewrite He. simpl.
  eexists. split; [reflexivity|]. simpl. repeat split.
Qed.

(** ** Metadata *)

Lemma column_fold (tn : MariaFieldType -> string) (names : list string)
    (types : list MariaFieldType) (n : nat) :
  forall (a : nat) (ns ts : list string),
    (a + n <= length names)%nat -> (a + n <= length types)%nat ->
    fold_left
      (fun acc i =>
         match acc, nth_error names i, nth_error types i with
         | Some (names', types'), Some x, Some t =>
             Some (names' ++ [x], types' ++ [tn t])
         | _, _, _ => None
         end)
      (seq a n) (Some (ns, ts))
    = Some (ns ++ firstn n (skipn a names),
            ts ++ map tn (firstn n (skipn a types))).
Proof.
  induction n as [|n IH]; intros a ns ts Hn Ht; cbn [seq fold_left].
  - rewrite !firstn_O. simpl. rewrite !app_nil_r. reflexivity.
  - destruct (nth_error names a) as [x|] eqn:Ex;
      [|apply nth_error_None in Ex; lia].
    destruct (nth_error types a) as [t|] eqn:Et;
      [|apply nth_error_None in Et; lia].
    rewrite IH by lia.
    rewrite (nth_error_skipn_cons _ _ _ Ex), (nth_error_skipn_cons _ _ _ Et).
    cbn [firstn map]. rewrite <- !app_assoc. reflexivity.
Qed.

Lemma column_info_full (tn : MariaFieldType -> string) (r : Result) :
  nCols_ r = Z.of_nat (length (names_ r)) ->
  length (types_ r) = length (names_ r) ->
  Z.of_nat (length (names_ r)) <= INT_MAX ->
  column_info tn r =
  Some (mkColumnFrame (names_ r) (map tn (types_ r))
          (NA_INTEGER, - nCols_ r) "data.frame"
          ["name"%string; "type"%string]).
Proof.
  intros Hc Hl Hm. unfold column_info. rewrite Hc.
  destruct (Z.ltb_spec (Z.of_nat (length (names_ r))) 0) as [H|_]; [lia|].
  rewrite Nat2Z.id.
  rewrite (column_fold tn (names_ r) (types_ r)) by lia.
  change (skipn 0 (names_ r)) with (names_ r).
  change (skipn 0 (types_ r)) with (types_ r).
  rewrite firstn_all. rewrite <- Hl at 1. rewrite firstn_all. simpl.
  rewrite static_cast_int_id; [reflexivity|].
  unfold INT_MIN, INT_MAX in *. lia.
Qed.

(** X6: whenever [send_query], on an object that has cached nothing yet,
    returns from a statement whose metadata the server gave, the object
    has one cached name and one cached type per field, in field order, the
    type being the Type Mapper's for the field's type code and for whether
    its charset is 63 (binary); the Output Binder is set up with these
    types, and [column_info()] lists exactly these names with the names of
    these types, one row per column. *)
Theorem send_query_caches_metadata
    (vt : Z -> bool -> MariaFieldType) (tn : MariaFieldType -> string)
    (sql : string) (w w' : World) (s : MYSQL_STMT) (n : Z)
    (fields : list MYSQL_FIELD) :
  pStatement_ (this w) = Some s ->
  names_ (this w) = [] ->
  types_ (this w) = [] ->
  server_prepare (conn_server (conn w)) (conn_db (conn w)) sql
    = PrepareOk n (Some fields) ->
  Z.of_nat (length fields) <= INT_MAX ->
  send_query vt sql w = Ok tt w' ->
  has_result (this w') = true /\
  nCols_ (this w') = Z.of_nat (length fields) /\
  names_ (this w') = map field_name fields /\
  types_ (this w') =
    map (fun f => vt (field_type f) (field_charsetnr f =? 63)) fields /\
  row_types (bindingOutput_ (this w')) = types_ (this w') /\
  column_info tn (this w') =
    Some (mkColumnFrame
            (map field_name fields)
            (map (fun f => tn (vt (field_type f) (field_charsetnr f =? 63)))
                 fields)
            (NA_INTEGER, - Z.of_nat (length fields)) "data.frame"
            ["name"%string; "type"%string]).
Proof.
  intros Hs Hn Ht Hp Hlen.
  assert (Hc : static_cast_int (Z.of_nat (length fields))
               = Z.of_nat (length fields)).
  { apply static_cast_int_id. unfold INT_MIN, INT_MAX in *. lia. }
  assert (Hfinal : forall r : Result,
    nCols_ r = Z.of_nat (length fields) ->
    names_ r = map field_name fields ->
    types_ r = map (fun f => vt (field_type f) (field_charsetnr f =? 63))
                   fields ->
    column_info tn r =
    Some (mkColumnFrame
            (map field_name fields)
            (map (fun f => tn (vt (field_type f) (field_charsetnr f =? 63)))
                 fields)
            (NA_INTEGER, - Z.of_nat (length fields)) "data.frame"
            ["name"%string; "type"%string])).
  { intros r H1 H2 H3. rewrite (column_info_full tn r).
    - rewrite H1, H2, H3, map_map. reflexivity.
    - rewrite H1, H2, length_map. reflexivity.
    - rewrite H2, H3, !length_map. reflexivity.
    - rewrite H2, length_map. exact Hlen. }
  open_world w. subst.
  unfold send_query, mysql_stmt_prepare, mysql_stmt_param_count,
    mysql_stmt_result_metadata, execute, mysql_stmt_execute,
    mysql_stmt_store_result, cache_metadata, bindingOutput_setup,
    throw_error, has_result.
  run. rewrite Hp. destruct s as [sql0 n0 md0 b0 rs0 a0 em en]. simpl.
  destruct (static_cast_int n =? 0); simpl.
  - destruct (server_execute conn_server0 conn_db0 sql b0)
      as [[msg code|a1 rs1] d1]; simpl; [intros E; discriminate|].
    rewrite Hc, Nat2Z.id, firstn_all.
    intros E. injection E as <-. simpl.
    do 5 (split; [reflexivity|]). apply Hfinal; reflexivity.
  - rewrite Hc, Nat2Z.id, firstn_all.
    intros E. injection E as <-. simpl.
    do 5 (split; [reflexivity|]). apply Hfinal; reflexivity.
Qed.

(** ** fetch on a statement without a result set, and after close *)

(** X7: on a bound, active statement without a result set [fetch] returns,
    whatever [n_max], a table of zero rows with the cached names and types;
    it warns that execute should be used exactly when no column name is
    cached, and does nothing else: no call to the server, no field
    changed. *)
Theorem fetch_without_result (fuel : nat) (n_max : Z) (w : World) :
  bound_ (this w) = true ->
  active w = Ok true w ->
  has_result (this w) = false ->
  exists w',
    fetch fuel n_max w
      = Ok (df_create (types_ (this w)) (names_ (this w)) 0) w' /\
    this w' = this w /\
    conn w' = conn w /\
    trace w' =
      (if (length (names_ (this w)) =? 0)%nat
       then [EvWarning "Use dbExecute() instead of dbGetQuery() for statements, and also avoid dbFetch()"]
       else []) ++ trace w.
Proof.
  intros Hb Ha Hr. apply active_inv in Ha. unfold current in Ha.
  destruct w as [r c tr ip]. simpl in *.
  unfold fetch, warning. run. rewrite Hb. simpl. rewrite Ha. simpl.
  rewrite Hr. simpl.
  destruct (length (names_ r) =? 0)%nat; simpl;
    eexists; repeat split.
Qed.

(** X8: after [close()], a [fetch] on the bound object that is still the
    connection's current result does not reach for the released statement
    handle: it returns a table of zero rows with the cached names and
    types, and executes and fetches nothing. *)
Theorem fetch_after_close (fuel : nat) (n_max : Z) (w w1 : World) :
  bound_ (this w) = true ->
  active w = Ok true w ->
  close w = Ok tt w1 ->
  exists w2,
    fetch fuel n_max w1
      = Ok (df_create (types_ (this w)) (names_ (this w)) 0) w2 /\
    this w2 = this w1 /\
    pStatement_ (this w2) = None /\
    trace w2 =
      (if (length (names_ (this w)) =? 0)%nat
       then [EvWarning "Use dbExecute() instead of dbGetQuery() for statements, and also avoid dbFetch()"]
       else []) ++ trace w1.
Proof.
  intros Hb Ha. apply active_inv in Ha. unfold current in Ha.
  open_world w. subst.
  unfold close, has_result, autocommit, mysql_free_result, mysql_stmt_close.
  run.
  destruct pSpec_0; destruct pStatement_0; simpl; intros E;
    injection E as <-; unfold fetch, warning, has_result; run;
    rewrite Ha; simpl;
    (destruct (length names_0 =? 0)%nat; simpl; eexists; repeat split).
Qed.

(** ** The counters beyond [INT_MAX] *)

(** X9: on a bound statement whose affected-row counter lies between 2^31
    and 2^32, [rows_affected()] returns the counter less 2^32, a negative
    number; at 2^31 exactly this is the "not available" sentinel. *)
Theorem rows_affected_wraps (w : World) :
  bound_ (this w) = true ->
  2 ^ 31 <= rowsAffected_ (this w) < 2 ^ 32 ->
  rows_affected w = Ok (rowsAffected_ (this w) - 2 ^ 32) w /\
  rowsAffected_ (this w) - 2 ^ 32 < 0 /\
  (rowsAffected_ (this w) = 2 ^ 31 -> rows_affected w = Ok NA_INTEGER w).
Proof.
  intros Hb Hr.
  assert (E : static_cast_int (rowsAffected_ (this w))
              = rowsAffected_ (this w) - 2 ^ 32).
  { unfold static_cast_int.
    replace (rowsAffected_ (this w) + 2 ^ 31)
      with (rowsAffected_ (this w) - 2 ^ 31 + 1 * 2 ^ 32) by lia.
    rewrite Z_mod_plus_full, Z.mod_small by lia. lia. }
  unfold rows_affected. run. rewrite Hb. simpl. rewrite E.
  split; [reflexivity|]. split; [lia|].
  intros H. rewrite H. reflexivity.
Qed.

(** ** bind: a batch that fails on the way *)

Lemma bind_loop_fails (ps1 : list (list value)) :
  forall (fuel : nat) (w : World) (s : MYSQL_STMT) (p : list value)
         (ps2 : list (list value)) (counts : list Z) (d1 d2 : db)
         (msg : string) (code : Z),
    (length ps1 < fuel)%nat ->
    pStatement_ (this w) = Some s ->
    pSpec_ (this w) = None ->
    0 <= rowsAffected_ (this w) < 2 ^ 64 ->
    skipn (binding_i (bindingInput_ (this w)))
          (binding_params (bindingInput_ (this w))) = ps1 ++ p :: ps2 ->
    batch_affected (conn_server (conn w)) (stmt_sql s) (conn_db (conn w)) ps1
      = Some (counts, d1) ->
    server_execute (conn_server (conn w)) d1 (stmt_sql s) p
      = (ExecError msg code, d2) ->
    exists w',
      bind_loop fuel w = Throw (ProtocolError msg code) w' /\
      trace w' = EvExecute (stmt_sql s) p :: EvBindParam p
                 :: batch_events (stmt_sql s) ps1 ++ trace w /\
      rowsAffected_ (this w') = u64 (rowsAffected_ (this w) + sum_Z counts) /\
      conn_db (conn w') = d2 /\
      bound_ (this w') = bound_ (this w) /\
      binding_i (bindingInput_ (this w'))
        = (binding_i (bindingInput_ (this w)) + length ps1 + 1)%nat.
Proof.
  induction ps1 as [|q ps1 IH];
    intros fuel w s p ps2 counts d1 d2 msg code Hf Hs Hp Hra Hk Hb He;
    (destruct fuel as [|fuel]; [simpl in Hf; lia|]);
    open_world w; destruct bindingInput_0 as [params i];
    destruct s as [sql n md b rs a em en]; simpl in *; subst;
    rewrite bind_loop_S;
    unfold bind_next_row, execute, mysql_stmt_execute,
      mysql_stmt_affected_rows, mysql_stmt_store_result, throw_error;
    run.
  - injection Hb as <- <-.
    destruct (skipn_cons_nth_error _ _ _ _ Hk) as [Hn _].
    rewrite Hn. simpl. rewrite He. simpl.
    eexists. split; [reflexivity|]. simpl.
    split; [reflexivity|].
    split; [rewrite Z.add_0_r; symmetry; apply u64_small; exact Hra|].
    repeat split. lia.
  - destruct (skipn_cons_nth_error _ _ _ _ Hk) as [Hn Hk'].
    destruct (server_execute conn_server0 conn_db0 sql q)
      as [[msg1 code1|a1 rs1] dq] eqn:Heq; [discriminate|].
    destruct (batch_affected conn_server0 sql dq ps1) as [[l dl]|] eqn:Hb';
      [|discriminate].
    injection Hb as <- <-.
    rewrite Hn. simpl. rewrite Heq. simpl.
    match goal with
    | |- context [bind_loop fuel ?W] =>
        edestruct (IH fuel W) as (w' & Hrun & Htr & Hr & Hd & Hbd & Hi)
    end; simpl;
      [ lia | reflexivity | reflexivity | apply u64_range | exact Hk'
      | exact Hb' | exact He | ].
    exists w'. split; [exact Hrun|]. simpl in *.
    rewrite Htr, Hr, Hd, Hbd, Hi. rewrite <- app_assoc. simpl.
    repeat split; try lia.
    rewrite u64_add_l. f_equal. lia.
Qed.

Lemma batch_events_executes (sql : string) (l : list (list value)) :
  length (filter is_execute (@batch_events value sql l)) = length l.
Proof.
  induction l as [|x l IH]; [reflexivity|].
  simpl. rewrite filter_app, length_app, IH. simpl. lia.
Qed.

(** X10: on a statement without a result set, when the server accepts the
    first k parameter rows and rejects the next one, [bind()] throws the
    server's message and code after k+1 executions and tries no further
    row. The k accepted executions stay done, their counts are in the
    counter, but the bound flag is not set: on a statement not bound
    before, [rows_affected()] keeps returning "not available". *)
Theorem bind_batch_fails (ps1 ps2 : list (list value)) (p : list value)
    (w : World) (s : MYSQL_STMT) (counts : list Z) (d1 d2 : db)
    (msg : string) (code : Z) :
  has_result (this w) = false ->
  pStatement_ (this w) = Some s ->
  batch_affected (conn_server (conn w)) (stmt_sql s) (conn_db (conn w)) ps1
    = Some (counts, d1) ->
  server_execute (conn_server (conn w)) d1 (stmt_sql s) p
    = (ExecError msg code, d2) ->
  exists w',
    bind (ps1 ++ p :: ps2) w = Throw (ProtocolError msg code) w' /\
    trace w' = EvExecute (stmt_sql s) p :: EvBindParam p
               :: batch_events (stmt_sql s) ps1 ++ trace w /\
    count_events is_execute (trace w')
      = (count_events is_execute (trace w) + length ps1 + 1)%nat /\
    rowsAffected_ (this w') = u64 (sum_Z counts) /\
    conn_db (conn w') = d2 /\
    bound_ (this w') = bound_ (this w) /\
    (bound_ (this w) = false -> rows_affected w' = Ok NA_INTEGER w').
Proof.
  intros Hr Hs Hb He.
  open_world w. unfold has_result in Hr. simpl in Hr.
  destruct pSpec_0; [discriminate|]. subst.
  unfold bind, bindingInput_setup, init_binding. run.
  match goal with
  | |- context [bind_loop ?f ?W] =>
      edestruct (bind_loop_fails ps1 f W)
        as (w' & Hrun & Htr & Hra & Hd & Hbd & Hi)
  end; simpl;
    [ | reflexivity | reflexivity | lia | reflexivity | exact Hb | exact He | ].
  - unfold binding_remaining. simpl. rewrite length_app. simpl. lia.
  - rewrite Hrun. exists w'. split; [reflexivity|]. simpl in *.
    split; [exact Htr|].
    split.
    { rewrite Htr. unfold count_events. simpl. rewrite filter_app, length_app.
      rewrite batch_events_executes. lia. }
    split; [exact Hra|]. split; [exact Hd|]. split; [exact Hbd|].
    intros H0. unfold rows_affected. run. rewrite Hbd, H0. reflexivity.
Qed.

(** ** step: the row, the end, the error *)

Lemma step_takes_row (w : World) (s : MYSQL_STMT) (row : list value)
    (t : list fetch_outcome) :
  pStatement_ (this w) = Some s ->
  complete_ (this w) = false ->
  stmt_result s = FetchRow row :: t \/ stmt_result s = FetchTruncated row :: t ->
  exists w1,
    step w = Ok true w1 /\
    pStatement_ (this w1) = Some (stmt_set_result t s) /\
    complete_ (this w1) = false /\
    row_buffers (bindingOutput_ (this w1)) = row /\
    rowsFetched_ (this w1) = u64 (rowsFetched_ (this w) + 1) /\
    bindingInput_ (this w1) = bindingInput_ (this w) /\
    conn w1 = conn w /\
    fetch_frame w w1.
Proof.
  intros Hs Hc Hr. open_world w. subst.
  destruct s as [sql n md b rs a em en]. simpl in Hr.
  unfold step. run.
  rewrite (step_loop_S (binding_remaining bindingInput_0)).
  unfold fetch_row, mysql_stmt_fetch. run.
  destruct Hr as [-> | ->]; simpl;
    (eexists; split; [reflexivity|]; simpl;
     do 6 (split; [reflexivity|]); unfold fetch_frame; simpl; repeat split).
Qed.

Lemma step_hits_error (w : World) (s : MYSQL_STMT) (msg : string) (code : Z)
    (t : list fetch_outcome) :
  pStatement_ (this w) = Some s ->
  complete_ (this w) = false ->
  stmt_result s = FetchError msg code :: t ->
  exists w1,
    step w = Throw (ProtocolError msg code) w1 /\
    trace w1 = EvFetch 1 :: trace w /\
    rowsFetched_ (this w1) = rowsFetched_ (this w) /\
    complete_ (this w1) = false /\
    bindingInput_ (this w1) = bindingInput_ (this w) /\
    conn w1 = conn w /\
    fetch_frame w w1.
Proof.
  intros Hs Hc Hr. open_world w. subst.
  destruct s as [sql n md b rs a em en]. simpl in Hr. subst.
  unfold step. run.
  eexists. split; [reflexivity|]. simpl.
  do 5 (split; [reflexivity|]). unfold fetch_frame. simpl. repeat split.
Qed.

(** X11: [step()] on a statement whose pending rows the server delivers
    without error returns true exactly when a row is pending: the row is
    then in the output buffers and the fetched-row counter is one higher,
    the statement having been re-bound and re-executed on the way as often
    as a result set ran dry. With nothing pending it returns false, counts
    nothing and leaves the statement exhausted. A failing fetch, instead,
    makes it throw the server's message and code without counting a row
    and without turning to the next parameter row. *)
Theorem step_outcomes (w : World) :
  (forall rs, rows_pending w = Some rs ->
     exists w',
       fetch_frame w w' /\
       match rs with
       | [] => step w = Ok false w' /\
               exhausted w' /\ rows_pending w' = Some [] /\
               rowsFetched_ (this w') = rowsFetched_ (this w)
       | row :: rest => step w = Ok true w' /\
                        rows_pending w' = Some rest /\
                        row_buffers (bindingOutput_ (this w')) = row /\
                        rowsFetched_ (this w')
                          = u64 (rowsFetched_ (this w) + 1)
       end) /\
  (forall s msg code t,
     pStatement_ (this w) = Some s ->
     complete_ (this w) = false ->
     stmt_result s = FetchError msg code :: t ->
     exists w',
       step w = Throw (ProtocolError msg code) w' /\
       trace w' = EvFetch 1 :: trace w /\
       rowsFetched_ (this w') = rowsFetched_ (this w) /\
       bindingInput_ (this w') = bindingInput_ (this w)).
Proof.
  split.
  - intros rs Hp. exact (step_pending w rs Hp).
  - intros s msg code t Hs Hc Hr.
    destruct (step_hits_error w s msg code t Hs Hc Hr)
      as (w' & H1 & H2 & H3 & _ & H5 & _).
    exists w'. auto.
Qed.

(** ** fetch after fetch *)

(** What [fetch] returns and what it leaves, when only rows are pending. *)
Lemma fetch_run (fuel : nat) (n_max : Z) (w : World)
    (rs : list (list value)) :
  bound_ (this w) = true ->
  active w = Ok true w ->
  has_result (this w) = true ->
  rows_pending w = Some rs ->
  interrupt_pending w = false ->
  0 <= rowsFetched_ (this w) < 2 ^ 64 ->
  INT_MIN <= n_max <= INT_MAX ->
  (n_max < 0 -> Z.of_nat (length rs) < 2 ^ 30) ->
  (length rs < fuel)%nat ->
  exists (k : nat) (out : Table) (w' : World),
    k = (if n_max <? 0 then length rs
         else Nat.min (length rs) (Z.to_nat n_max)) /\
    fetch fuel n_max w = Ok out w' /\
    df_nrow out = Z.of_nat k /\
    rows_pending w' = Some (skipn k rs) /\
    rowsFetched_ (this w') = u64 (rowsFetched_ (this w) + Z.of_nat k) /\
    fetch_frame w w' /\
    (n_max < 0 \/ Z.of_nat k < n_max -> exhausted w') /\
    (forall a j, (a < k)%nat ->
                 (j < Z.to_nat (nCols_ (this w)))%nat ->
                 (j < length (types_ (this w)))%nat ->
                 df_cell out a j = Some (nth_error (nth a rs []) j)).
Proof.
  intros Hb Ha Hr Hp Hip Hrf Hnm Hsz Hfuel.
  unfold fetch, mbind, get_this. rewrite Hb. cbn [negb]. cbv beta iota.
  rewrite Ha. unfold ret, throw. cbn [negb]. cbv beta iota.
  rewrite Hr. cbn [negb]. cbv beta iota.
  remember (if n_max <? 0 then 100 else n_max) as n eqn:Hn.
  destruct (Z.eqb_spec n 0) as [Hn0|Hn0].
  - assert (Hz : n_max = 0).
    { destruct (Z.ltb_spec n_max 0); lia. }
    subst n_max. simpl in Hn. subst n. simpl.
    exists 0%nat, (df_create (types_ (this w)) (names_ (this w)) 0), w.
    rewrite Nat.min_0_r. simpl.
    conjuncts; try reflexivity; try lia.
    + exact Hp.
    + rewrite Z.add_0_r. symmetry. apply u64_small. exact Hrf.
    + apply fetch_frame_refl.
  - assert (Hnz : n_max <> 0).
    { intros ->. simpl in Hn. lia. }
    assert (Hn1 : 0 < n /\ n <= INT_MAX).
    { subst n. unfold INT_MAX in *. destruct (Z.ltb_spec n_max 0); lia. }
    destruct (fetch_loop_pending rs fuel n_max 0 n
                (df_create (types_ (this w)) (names_ (this w)) n) w)
      as (k & n' & out' & w' & Hk & Hrun & Hle & Hwf' & Hnr' & Hnam & Hty
          & Hcl & Hlen & Hp' & Hex & Hrf' & Hfr & Hold & Hnew);
      try assumption; try lia.
    + intros H. subst n. destruct (Z.ltb_spec n_max 0); lia.
    + apply df_create_wf. lia.
    + reflexivity.
    + rewrite Hrun. simpl in Hle, Hrun, Hk, Hex, Hnew.
      rewrite Z.sub_0_r in Hk.
      set (out := if Z.of_nat k <? n' then df_resize out' (Z.of_nat k)
                  else out').
      assert (Ho : df_nrow out = Z.of_nat k /\
                   forall a j, (a < k)%nat ->
                               df_cell out a j = df_cell out' a j).
      { subst out. destruct (Z.ltb_spec (Z.of_nat k) n') as [Hlt|Hge].
        - split; [reflexivity|].
          intros a j Hak. apply df_resize_cell; [assumption|lia|lia].
        - split; [lia|]. reflexivity. }
      destruct Ho as (Nr & Cells).
      assert (Hkk : k = (if n_max <? 0 then length rs
                         else Nat.min (length rs) (Z.to_nat n_max))).
      { rewrite Hk. subst n.
        destruct (Z.ltb_spec n_max 0); destruct (Z.gtb_spec n_max 0);
          try lia; reflexivity. }
      exists k, (df_s3 out (types_ (this w))), w'.
      split; [exact Hkk|]. split; [reflexivity|]. simpl.
      conjuncts; try assumption.
      * intros [H0|H0]; apply Hex; [left; exact H0|].
        right. subst n. destruct (Z.ltb_spec n_max 0); lia.
      * intros a j Hak Hj Hjl.
        change (df_cell out a j = Some (nth_error (nth a rs []) j)).
        rewrite Cells by exact Hak.
        apply (Hnew a j); [exact Hak|exact Hj|].
        simpl. rewrite length_map. exact Hjl.
Qed.

Lemma nth_skipn_shift {A} (k a : nat) (l : list A) (d : A) :
  nth a (skipn k l) d = nth (k + a) l d.
Proof.
  revert l. induction k as [|k IH]; intros l.
  - reflexivity.
  - destruct l as [|h l].
    + rewrite skipn_nil. destruct a; reflexivity.
    + rewrite skipn_cons. simpl. apply IH.
Qed.

Lemma active_frame (w w' : World) :
  fetch_frame w w' -> active w = Ok true w -> active w' = Ok true w'.
Proof.
  intros (Hs & _ & _ & _ & _ & _ & _ & Hc & _) Ha.
  apply active_inv in Ha. rewrite active_current.
  unfold current in *. rewrite Hc, Hs, Ha. reflexivity.
Qed.

(** X12: rows are fetched in chunks without loss or repetition. After a
    [fetch(n1)] with [n1 >= 0], a second [fetch(n2)] returns the pending
    rows that follow the ones the first returned, all of them for a
    negative [n2], and the fetched-row counter has grown by the rows of
    both. *)
Theorem fetch_in_chunks (fuel : nat) (n1 n2 : Z) (w : World)
    (rs : list (list value)) :
  bound_ (this w) = true ->
  active w = Ok true w ->
  has_result (this w) = true ->
  rows_pending w = Some rs ->
  interrupt_pending w = false ->
  0 <= rowsFetched_ (this w) < 2 ^ 64 ->
  0 <= n1 <= INT_MAX ->
  INT_MIN <= n2 <= INT_MAX ->
  (n2 < 0 -> Z.of_nat (length rs) < 2 ^ 30) ->
  (length rs < fuel)%nat ->
  exists (k1 k2 : nat) (out1 out2 : Table) (w1 w2 : World),
    k1 = Nat.min (length rs) (Z.to_nat n1) /\
    k2 = (if n2 <? 0 then (length rs - k1)%nat
          else Nat.min (length rs - k1) (Z.to_nat n2)) /\
    fetch fuel n1 w = Ok out1 w1 /\
    fetch fuel n2 w1 = Ok out2 w2 /\
    df_nrow out1 = Z.of_nat k1 /\
    df_nrow out2 = Z.of_nat k2 /\
    rows_pending w2 = Some (skipn (k1 + k2) rs) /\
    rowsFetched_ (this w2)
      = u64 (rowsFetched_ (this w) + Z.of_nat (k1 + k2)) /\
    (forall a j, (a < k1)%nat ->
                 (j < Z.to_nat (nCols_ (this w)))%nat ->
                 (j < length (types_ (this w)))%nat ->
                 df_cell out1 a j = Some (nth_error (nth a rs []) j)) /\
    (forall a j, (a < k2)%nat ->
                 (j < Z.to_nat (nCols_ (this w)))%nat ->
                 (j < length (types_ (this w)))%nat ->
                 df_cell out2 a j = Some (nth_error (nth (k1 + a) rs []) j)).
Proof.
  intros Hb Ha Hr Hp Hip Hrf Hn1 Hn2 Hsz Hfuel.
  destruct (fetch_run fuel n1 w rs)
    as (k1 & out1 & w1 & Hk1 & Hrun1 & Hnr1 & Hp1 & Hrf1 & Hfr1 & _ & Hc1);
    try assumption; try lia.
  { unfold INT_MIN. lia. }
  destruct (Z.ltb_spec n1 0) as [Hneg|_]; [lia|].
  assert (Hfr := Hfr1).
  destruct Hfr as (_ & Hsp & Hnc & Hbd & Hty & _ & _ & _ & Hip1).
  assert (Hlen : length (skipn k1 rs) = (length rs - k1)%nat)
    by apply length_skipn.
  destruct (fetch_run fuel n2 w1 (skipn k1 rs))
    as (k2 & out2 & w2 & Hk2 & Hrun2 & Hnr2 & Hp2 & Hrf2 & _ & _ & Hc2);
    try assumption; try congruence.
  { eapply active_frame; eassumption. }
  { unfold has_result in *. rewrite Hsp. exact Hr. }
  { rewrite Hrf1. apply u64_range. }
  { intros H. apply Hsz in H. lia. }
  { lia. }
  rewrite Hlen in Hk2.
  exists k1, k2, out1, out2, w1, w2.
  conjuncts; try assumption.
  - rewrite Hp2, skipn_skipn. f_equal. f_equal. lia.
  - rewrite Hrf2, Hrf1, u64_add_l. f_equal. lia.
  - intros a j Hak Hj Hjl. rewrite Hc2; try lia; try congruence.
    rewrite nth_skipn_shift. reflexivity.
Qed.

Lemma fetch_zero_same (fuel : nat) (w : World) :
  bound_ (this w) = true ->
  active w = Ok true w ->
  has_result (this w) = true ->
  fetch fuel 0 w = Ok (df_create (types_ (this w)) (names_ (this w)) 0) w.
Proof.
  intros Hb Ha Hr. apply active_inv in Ha. unfold current in Ha.
  unfold fetch. run. rewrite Hb. simpl. rewrite Ha. simpl. rewrite Hr.
  reflexivity.
Qed.

(** X13: a [fetch] with negative [n_max] that returns leaves the statement
    complete: [complete()] returns true, [rows_fetched()] returns the count
    before plus the rows returned (while that fits an [int]), and any
    further [fetch] returns a table of zero rows and changes neither. *)
Theorem fetch_all_completes (fuel : nat) (n_max : Z) (w : World)
    (rs : list (list value)) :
  bound_ (this w) = true ->
  active w = Ok true w ->
  has_result (this w) = true ->
  rows_pending w = Some rs ->
  interrupt_pending w = false ->
  0 <= rowsFetched_ (this w) < 2 ^ 64 ->
  INT_MIN <= n_max < 0 ->
  Z.of_nat (length rs) < 2 ^ 30 ->
  (length rs < fuel)%nat ->
  exists (out : Table) (w' : World),
    fetch fuel n_max w = Ok out w' /\
    df_nrow out = Z.of_nat (length rs) /\
    complete w' = Ok true w' /\
    (rowsFetched_ (this w) + Z.of_nat (length rs) <= INT_MAX ->
     rows_fetched w'
       = Ok (rowsFetched_ (this w) + Z.of_nat (length rs)) w') /\
    forall (fuel2 : nat) (n2 : Z),
      (0 < fuel2)%nat -> INT_MIN <= n2 <= INT_MAX ->
      exists (out2 : Table) (w2 : World),
        fetch fuel2 n2 w' = Ok out2 w2 /\
        df_nrow out2 = 0 /\
        complete w2 = Ok true w2 /\
        rowsFetched_ (this w2) = rowsFetched_ (this w').
Proof.
  intros Hb Ha Hr Hp Hip Hrf Hnm Hsz Hfuel.
  destruct (fetch_run fuel n_max w rs)
    as (k & out & w' & Hk & Hrun & Hnr & Hp1 & Hrf1 & Hfr & Hex & _);
    try assumption; try (unfold INT_MAX; lia); try (intros _; assumption).
  destruct (Z.ltb_spec n_max 0) as [_|Hge]; [|lia]. subst k.
  assert (Hfr1 := Hfr).
  destruct Hfr1 as (_ & Hsp & _ & Hbd & _ & _ & _ & _ & Hip1).
  assert (Hex1 : exhausted w') by (apply Hex; left; lia).
  assert (Hcomp : forall w0 : World,
            bound_ (this w0) = true -> exhausted w0 ->
            complete w0 = Ok true w0).
  { intros w0 Hb0 [Hc0 _]. unfold complete. run.
    rewrite Hb0, Hc0. simpl. rewrite orb_true_r. reflexivity. }
  exists out, w'. split; [exact Hrun|]. split; [exact Hnr|].
  split; [apply Hcomp; congruence|].
  split.
  - intros Hle. unfold rows_fetched. run. rewrite Hbd, Hb. simpl.
    rewrite Hrf1, u64_small by (unfold INT_MAX in Hle; lia).
    rewrite static_cast_int_small by lia. reflexivity.
  - intros fuel2 n2 Hf2 Hn2.
    rewrite skipn_all in Hp1.
    destruct (fetch_run fuel2 n2 w' [])
      as (k2 & out2 & w2 & Hk2 & Hrun2 & Hnr2 & Hp2 & Hrf2 & Hfr2 & Hex2 & _);
      try assumption; try congruence.
    { eapply active_frame; eassumption. }
    { unfold has_result in *. rewrite Hsp. exact Hr. }
    { rewrite Hrf1. apply u64_range. }
    { intros _. simpl. lia. }
    simpl in Hk2.
    assert (Hk0 : k2 = 0%nat) by (rewrite Hk2; destruct (n2 <? 0); reflexivity).
    clear Hk2. subst k2. exists out2, w2.
    split; [exact Hrun2|]. split; [exact Hnr2|].
    split.
    + destruct Hfr2 as (_ & _ & _ & Hbd2 & _).
      apply Hcomp; [congruence|].
      (* the statement stays exhausted *)
      destruct (Z.ltb_spec n2 0) as [Hlt|Hge2].
      * apply Hex2. left. exact Hlt.
      * destruct (Z.eq_dec n2 0) as [->|Hnz].
        -- rewrite fetch_zero_same in Hrun2.
           ++ injection Hrun2 as _ <-. exact Hex1.
           ++ congruence.
           ++ eapply active_frame; eassumption.
           ++ unfold has_result in *. rewrite Hsp. exact Hr.
        -- apply Hex2. right. simpl. lia.
    + rewrite Hrf2. simpl. rewrite Z.add_0_r. apply u64_small.
      rewrite Hrf1. apply u64_range.
Qed.

(** ** fetch that does not return *)

Lemma stmt_result_set (t : list fetch_outcome) (s : @MYSQL_STMT value) :
  stmt_result (stmt_set_result t s) = t.
Proof. destruct s. reflexivity. Qed.

(** The capacity and the row index after one more row. *)
Lemma fetch_loop_grows (n_max i n : Z) :
  (i >=? n) && (n_max >? 0) = false ->
  n_max <> 0 -> 0 <= i <= n -> n <= INT_MAX ->
  (n_max < 0 -> 0 < n /\ i + 1 < 2 ^ 30) ->
  let n1 := if i >=? n then static_cast_int (n * 2) else n in
  i + 1 <= n1 /\ n <= n1 /\ n1 <= INT_MAX /\ (0 < n_max -> n1 = n) /\
  static_cast_int (i + 1) = i + 1.
Proof.
  intros Hbrk Hnz Hi Hn Hneg n1. subst n1.
  destruct (Z.geb_spec i n) as [Hge|Hlt].
  - simpl in Hbrk.
    assert (Hm : n_max < 0).
    { destruct (Z.gtb_spec n_max 0); [discriminate|lia]. }
    destruct (Hneg Hm) as [H0 Hb].
    rewrite !static_cast_int_id by (unfold INT_MIN, INT_MAX; lia).
    unfold INT_MAX. repeat split; lia.
  - rewrite static_cast_int_id by (unfold INT_MIN, INT_MAX in *; lia).
    repeat split; lia.
Qed.

Lemma fetch_loop_fetch_error (rows : list (list value)) :
  forall (fuel : nat) (n_max i n : Z) (out : Table) (w : World)
         (s : MYSQL_STMT) (msg : string) (code : Z),
    pStatement_ (this w) = Some s ->
    complete_ (this w) = false ->
    first_error (stmt_result s) = Some (rows, msg, code) ->
    interrupt_pending w = false ->
    0 <= rowsFetched_ (this w) < 2 ^ 64 ->
    (length rows < fuel)%nat ->
    n_max <> 0 -> 0 <= i <= n -> n <= INT_MAX ->
    (0 < n_max -> i + Z.of_nat (length rows) < n) ->
    (n_max < 0 -> 0 < n /\ i + Z.of_nat (length rows) + 1 < 2 ^ 30) ->
    exists w',
      fetch_loop fuel n_max i n out w = Throw (ProtocolError msg code) w' /\
      rowsFetched_ (this w')
        = u64 (rowsFetched_ (this w) + Z.of_nat (length rows)) /\
      fetch_frame w w'.
Proof.
  induction rows as [|row rest IH];
    intros fuel n_max i n out w s msg code Hs Hc Hfe Hip Hrf Hfuel Hnz Hi Hn
           Hpos Hneg;
    (destruct fuel as [|fuel]; [simpl in Hfuel; lia|]);
    rewrite fetch_loop_S;
    (destruct ((i >=? n) && (n_max >? 0)) eqn:Hbrk;
     [ apply andb_true_iff in Hbrk; destruct Hbrk as [Hge Hgt];
       apply Z.geb_le in Hge; apply Z.gtb_lt in Hgt;
       specialize (Hpos Hgt); lia | ]).
  - destruct (stmt_result s) as [|[r|r|m c] t] eqn:Hres; simpl in Hfe;
      try discriminate;
      try (destruct (first_error t) as [[[l m] c]|]; discriminate).
    injection Hfe as <- <-.
    destruct (step_hits_error w s m c t Hs Hc Hres)
      as (w1 & Hrun & _ & Hrf1 & _ & _ & _ & Hfr).
    rewrite Hrun. exists w1. split; [reflexivity|].
    split; [|exact Hfr].
    rewrite Hrf1. simpl. rewrite Z.add_0_r. symmetry. apply u64_small.
    exact Hrf.
  - assert (Hrow : exists t,
              (stmt_result s = FetchRow row :: t \/
               stmt_result s = FetchTruncated row :: t) /\
              first_error t = Some (rest, msg, code)).
    { destruct (stmt_result s) as [|[r|r|m c] t]; simpl in Hfe;
        try discriminate;
        (destruct (first_error t) as [[[l m] c]|] eqn:Hft; [|discriminate]);
        injection Hfe as E1 E2 E3 E4; subst; exists t; auto. }
    destruct Hrow as (t & Hres & Hft).
    destruct (step_takes_row w s row t Hs Hc Hres)
      as (w1 & Hrun & Hs1 & Hc1 & _ & Hrf1 & _ & _ & Hfr).
    rewrite Hrun. cbn [negb]. cbv iota zeta.
    assert (Hfr1 := Hfr).
    destruct Hfr1 as (_ & _ & _ & _ & _ & _ & _ & _ & Hip1).
    destruct (fetch_loop_grows n_max i n Hbrk Hnz Hi Hn)
      as (G1 & G2 & G3 & G4 & G5).
    { intros Hm. destruct (Hneg Hm). simpl length in *. lia. }
    rewrite G5.
    destruct (interrupt_check_quiet (Z.rem (i + 1) 1000 =? 0) w1)
      as (w2 & Hchk & Ht2 & Hc2 & Hi2); [congruence|].
    rewrite Hchk.
    edestruct (IH fuel n_max (i + 1)
                 (if i >=? n then static_cast_int (n * 2) else n))
      as (w' & Hrun' & Hrf' & Hfr').
    + rewrite Ht2. exact Hs1.
    + rewrite Ht2. exact Hc1.
    + rewrite stmt_result_set. exact Hft.
    + exact Hi2.
    + rewrite Ht2, Hrf1. apply u64_range.
    + simpl in Hfuel. lia.
    + exact Hnz.
    + lia.
    + exact G3.
    + intros Hp0. rewrite (G4 Hp0). specialize (Hpos Hp0).
      simpl length in Hpos. lia.
    + intros Hm. destruct (Hneg Hm) as [H0 Hb]. simpl length in Hb.
      split; lia.
    + exists w'. split; [exact Hrun'|]. split.
      * rewrite Hrf', Ht2, Hrf1, u64_add_l. f_equal. simpl length. lia.
      * eapply fetch_frame_trans; [exact Hfr|].
        eapply fetch_frame_trans; [|exact Hfr'].
        apply fetch_frame_ext; congruence.
Qed.

(** X14: when a fetch fails in the middle of the current result set, after
    m rows, a [fetch] that asks for more than m rows throws the server's
    message and code. The m rows gone through are not returned, yet they
    are counted: the fetched-row counter is m higher. The statement stays
    bound. *)
Theorem fetch_fetch_error (fuel : nat) (n_max : Z) (w : World)
    (s : MYSQL_STMT) (rows : list (list value)) (msg : string) (code : Z) :
  bound_ (this w) = true ->
  active w = Ok true w ->
  has_result (this w) = true ->
  pStatement_ (this w) = Some s ->
  complete_ (this w) = false ->
  first_error (stmt_result s) = Some (rows, msg, code) ->
  interrupt_pending w = false ->
  0 <= rowsFetched_ (this w) < 2 ^ 64 ->
  INT_MIN <= n_max <= INT_MAX ->
  (0 <= n_max -> Z.of_nat (length rows) < n_max) ->
  (n_max < 0 -> Z.of_nat (length rows) + 1 < 2 ^ 30) ->
  (length rows < fuel)%nat ->
  exists w',
    fetch fuel n_max w = Throw (ProtocolError msg code) w' /\
    rowsFetched_ (this w')
      = u64 (rowsFetched_ (this w) + Z.of_nat (length rows)) /\
    bound_ (this w') = true /\
    has_result (this w') = true.
Proof.
  intros Hb Ha Hr Hs Hc Hfe Hip Hrf Hnm Hpos Hneg Hfuel.
  unfold fetch, mbind, get_this. rewrite Hb. cbn [negb]. cbv beta iota.
  rewrite Ha. unfold ret, throw. cbn [negb]. cbv beta iota.
  rewrite Hr. cbn [negb]. cbv beta iota.
  remember (if n_max <? 0 then 100 else n_max) as n eqn:Hn.
  assert (Hn1 : 0 < n /\ n <= INT_MAX /\ n_max <> 0).
  { subst n. unfold INT_MAX in *. destruct (Z.ltb_spec n_max 0); lia. }
  destruct (Z.eqb_spec n 0) as [Hn0|_]; [lia|].
  destruct (fetch_loop_fetch_error rows fuel n_max 0 n
              (df_create (types_ (this w)) (names_ (this w)) n) w s msg code)
    as (w' & Hrun & Hrf' & Hfr); try assumption; try lia.
  - intros H. subst n. destruct (Z.ltb_spec n_max 0); lia.
  - rewrite Hrun. exists w'. split; [reflexivity|]. split; [exact Hrf'|].
    destruct Hfr as (_ & Hsp & _ & Hbd & _).
    unfold has_result in *. rewrite Hsp, Hbd. auto.
Qed.

Lemma interrupt_check_fires (w : World) :
  interrupt_pending w = true ->
  exists w',
    checkUserInterrupt w = Throw Interrupted w' /\
    this w' = this w /\ conn w' = conn w /\
    interrupt_pending w' = true /\
    trace w' = EvCheckInterrupt :: trace w.
Proof.
  intros Hi. destruct w as [r c tr ip]. simpl in Hi. subst ip.
  unfold checkUserInterrupt. run. eexists. repeat split.
Qed.

Lemma fetch_loop_interrupted (m : nat) :
  forall (fuel : nat) (n_max i n : Z) (out : Table) (w : World)
         (rs : list (list value)),
    rows_pending w = Some rs ->
    interrupt_pending w = true ->
    0 <= rowsFetched_ (this w) < 2 ^ 64 ->
    (m < length rs)%nat ->
    (m < fuel)%nat ->
    n_max <> 0 -> 0 <= i <= n -> n <= INT_MAX ->
    (0 < n_max -> i + Z.of_nat (S m) <= n) ->
    (n_max < 0 -> 0 < n /\ i + Z.of_nat (S m) < 2 ^ 30) ->
    Z.rem (i + Z.of_nat (S m)) 1000 = 0 ->
    (forall j, (0 < j <= m)%nat -> Z.rem (i + Z.of_nat j) 1000 <> 0) ->
    exists w',
      fetch_loop fuel n_max i n out w = Throw Interrupted w' /\
      rows_pending w' = Some (skipn (S m) rs) /\
      rowsFetched_ (this w')
        = u64 (rowsFetched_ (this w) + Z.of_nat (S m)) /\
      fetch_frame w w'.
Proof.
  induction m as [|m IH];
    intros fuel n_max i n out w rs Hp Hip Hrf Hlen Hfuel Hnz Hi Hn Hpos Hneg
           Hrem Hnot;
    (destruct fuel as [|fuel]; [lia|]);
    (destruct rs as [|row rest]; [simpl in Hlen; lia|]);
    rewrite fetch_loop_S;
    (destruct ((i >=? n) && (n_max >? 0)) eqn:Hbrk;
     [ apply andb_true_iff in Hbrk; destruct Hbrk as [Hge Hgt];
       apply Z.geb_le in Hge; apply Z.gtb_lt in Hgt;
       specialize (Hpos Hgt); lia | ]);
    destruct (step_pending w (row :: rest) Hp)
      as (w1 & Hfr & Hrun & Hp1 & _ & Hrf1);
    rewrite Hrun; cbn [negb]; cbv iota zeta;
    assert (Hfr1 := Hfr);
    destruct Hfr1 as (_ & _ & _ & _ & _ & _ & _ & _ & Hip1);
    (destruct (fetch_loop_grows n_max i n Hbrk Hnz Hi Hn)
       as (G1 & G2 & G3 & G4 & G5);
     [intros Hm; destruct (Hneg Hm); lia|]);
    rewrite G5.
  - replace (i + Z.of_nat 1) with (i + 1) in Hrem by lia.
    rewrite Hrem. simpl.
    assert (Hip2 : interrupt_pending w1 = true) by congruence.
    destruct (interrupt_check_fires w1 Hip2)
      as (w2 & Hchk & Ht2 & Hc2 & Hi2 & _).
    rewrite Hchk. exists w2. split; [reflexivity|].
    split; [rewrite (rows_pending_ext w1 w2 Ht2 Hc2), skipn_cons; exact Hp1|].
    split; [rewrite Ht2, Hrf1; reflexivity|].
    eapply fetch_frame_trans; [exact Hfr|].
    apply fetch_frame_ext; congruence.
  - assert (Hq : Z.rem (i + 1) 1000 <> 0).
    { specialize (Hnot 1%nat). apply Hnot. lia. }
    destruct (Z.eqb_spec (Z.rem (i + 1) 1000) 0) as [E|_]; [contradiction|].
    unfold ret.
    edestruct (IH fuel n_max (i + 1)
                 (if i >=? n then static_cast_int (n * 2) else n)
                 (copy_row (this w1)
                    (if i >=? n
                     then df_resize out
                            (if i >=? n then static_cast_int (n * 2) else n)
                     else out) i)
                 w1 rest)
      as (w' & Hrun' & Hp' & Hrf' & Hfr').
    + exact Hp1.
    + congruence.
    + rewrite Hrf1. apply u64_range.
    + simpl in Hlen. lia.
    + lia.
    + exact Hnz.
    + lia.
    + exact G3.
    + intros Hp0. rewrite (G4 Hp0). specialize (Hpos Hp0). lia.
    + intros Hm. destruct (Hneg Hm) as [H0 Hb]. split; lia.
    + replace (i + 1 + Z.of_nat (S m)) with (i + Z.of_nat (S (S m))) by lia.
      exact Hrem.
    + intros j Hj.
      replace (i + 1 + Z.of_nat j) with (i + Z.of_nat (S j)) by lia.
      apply Hnot. lia.
    + exists w'. split; [exact Hrun'|].
      split; [rewrite skipn_cons; exact Hp'|].
      split.
      * rewrite Hrf', Hrf1, u64_add_l. f_equal. lia.
      * eapply fetch_frame_trans; eassumption.
Qed.

(** X15: with the user's interrupt pending, a [fetch] that has at least
    1000 rows to take stops at the first check, after exactly 1000 rows,
    by throwing the interrupt. The table filled so far is lost with it,
    but the 1000 rows are spent: they are counted as fetched and the next
    [fetch] of the still bound statement will start at row 1001. *)
Theorem fetch_interrupted (fuel : nat) (n_max : Z) (w : World)
    (rs : list (list value)) :
  bound_ (this w) = true ->
  active w = Ok true w ->
  has_result (this w) = true ->
  rows_pending w = Some rs ->
  interrupt_pending w = true ->
  0 <= rowsFetched_ (this w) < 2 ^ 64 ->
  INT_MIN <= n_max <= INT_MAX ->
  n_max < 0 \/ 1000 <= n_max ->
  (1000 <= length rs)%nat ->
  (1000 <= fuel)%nat ->
  exists w',
    fetch fuel n_max w = Throw Interrupted w' /\
    rows_pending w' = Some (skipn 1000 rs) /\
    rowsFetched_ (this w') = u64 (rowsFetched_ (this w) + 1000) /\
    bound_ (this w') = true /\
    has_result (this w') = true.
Proof.
  intros Hb Ha Hr Hp Hip Hrf Hnm Hcase Hlen Hfuel.
  unfold fetch, mbind, get_this. rewrite Hb. cbn [negb]. cbv beta iota.
  rewrite Ha. unfold ret, throw. cbn [negb]. cbv beta iota.
  rewrite Hr. cbn [negb]. cbv beta iota.
  remember (if n_max <? 0 then 100 else n_max) as n eqn:Hn.
  assert (Hn1 : 0 < n /\ n <= INT_MAX /\ n_max <> 0).
  { subst n. unfold INT_MAX in *. destruct (Z.ltb_spec n_max 0); lia. }
  destruct (Z.eqb_spec n 0) as [Hn0|_]; [lia|].
  destruct (fetch_loop_interrupted 999 fuel n_max 0 n
              (df_create (types_ (this w)) (names_ (this w)) n) w rs)
    as (w' & Hrun & Hp' & Hrf' & Hfr); try assumption; try lia.
  - intros H. subst n. destruct (Z.ltb_spec n_max 0); lia.
  - reflexivity.
  - intros j Hj. simpl. rewrite Z.rem_small by lia. lia.
  - rewrite Hrun. exists w'. split; [reflexivity|].
    split; [exact Hp'|]. split; [exact Hrf'|].
    destruct Hfr as (_ & Hsp & _ & Hbd & _).
    unfold has_result in *. rewrite Hsp, Hbd. auto.
Qed.

End Properties.

(** * The scenarios *)

Section Scenarios.

Import Scenario.

(** C1, counterexample: a statement just constructed is not bound; the
    specification's wording makes it complete, [complete()] returns false. *)
Lemma complete_unbound_counterexample :
  bound_ (this fresh) = false /\
  complete_spec (this fresh) = true /\
  complete fresh = Ok false fresh.
Proof. repeat split. Qed.

(** C2, counterexample: on a statement never bound [rows_fetched()] returns
    0, which is not the "not available" sentinel. *)
Lemma rows_fetched_unbound_counterexample :
  bound_ (this fresh) = false /\
  rows_fetched fresh = Ok 0 fresh /\
  0 <> NA_INTEGER.
Proof. repeat split. discriminate. Qed.

(** The counters of a statement never bound, and of the insert bound to
    three rows. *)
Lemma rows_counters_witness :
  (rows_affected fresh = Ok NA_INTEGER fresh /\
   rows_fetched fresh = Ok 0 fresh) /\
  rows_affected inserted = Ok 3 inserted /\
  rows_fetched inserted = Ok 0 inserted.
Proof.
  destruct (rows_counters fresh) as (U & _ & _).
  destruct (rows_counters inserted) as (_ & HA & HF).
  split; [apply U; reflexivity|].
  split.
  - apply HA; [reflexivity|]. vm_compute. split; discriminate.
  - apply HF; [reflexivity|]. vm_compute. split; discriminate.
Defined.

(** C3, counterexample: after [bind] on a statement with a result set the
    completion flag is true, not false. *)
Lemma bind_complete_flag_counterexample :
  has_result (this prepared_select) = true /\
  bind [[2]; [3]] prepared_select = Ok tt bound_select /\
  complete_ (this bound_select) = true.
Proof. repeat split. Qed.

(** Binding two parameter rows to the prepared select. *)
Lemma bind_defers_execution_witness :
  exists w',
    bind [[2]; [3]] prepared_select = Ok tt w' /\
    trace w' = trace prepared_select /\
    complete_ (this w') = true /\
    bound_ (this w') = true.
Proof.
  destruct (bind_defers_execution [[2]; [3]] prepared_select)
    as (w' & Hrun & Htr & _ & _ & _ & _ & Hc & Hb & _); [reflexivity|].
  exists w'. auto.
Defined.

(** Scenario C: [fetch(-1)] over a result of 250 rows returns 250 rows,
    the first one [250] and the last one [1]. *)
Lemma fetch_rows_witness :
  exists out w',
    fetch 251 (-1) bound_250 = Ok out w' /\
    df_nrow out = 250 /\
    exhausted w' /\
    df_cell out 0 0 = Some (Some 250) /\
    df_cell out 249 0 = Some (Some 1).
Proof.
  destruct (fetch_rows 251 (-1) bound_250 (rows_down 250))
    as (out & w' & Hrun & Hn & _ & _ & Hneg & _ & _ & _ & _ & Hcell);
    try reflexivity.
  - vm_compute. split; [discriminate|reflexivity].
  - vm_compute. split; discriminate.
  - vm_compute. lia.
  - exists out, w'. split; [exact Hrun|]. split; [exact Hn|].
    split; [apply Hneg; reflexivity|].
    split; apply Hcell; vm_compute; lia.
Defined.

(** Fetching part of a result: two rows of five, then the other three
    although four are asked for. *)
Example fetch_two_then_rest :
  let w1 := after (fetch 6 2) bound_select in
  let w2 := after (fetch 6 4) w1 in
  option_map df_cols (returned (fetch 6 2 bound_select))
    = Some [[Some 2; Some 1]] /\
  option_map df_cols (returned (fetch 6 4 w1))
    = Some [[Some 3; Some 2; Some 1]] /\
  complete w2 = Ok true w2.
Proof. vm_compute. repeat split. Qed.

(** Scenario C: 250 rows into a table that starts with 100 rows double its
    capacity twice, to 400, before it is trimmed. *)
Example fetch_250_doubles :
  option_map (fun x => fst x)
    (returned
       (fetch_loop 251 (-1) 0 100
          (df_create (types_ (this bound_250)) (names_ (this bound_250)) 100)
          bound_250))
  = Some (250, 400).
Proof. vm_compute. reflexivity. Qed.

(** C5, counterexample: an update bound to two parameter rows that
    affect 2^30 rows each runs twice and [bind()] returns, but
    [rows_affected()] then returns NA_INTEGER, not the sum 2^31 of the two
    counts. *)
Lemma bind_batch_overflow_counterexample :
  has_result (this prepared_update_half) = false /\
  batch_affected srv2 update_half 0 [[0]; [1]]
    = Some ([2 ^ 30; 2 ^ 30], 0) /\
  bind [[0]; [1]] prepared_update_half = Ok tt halves_updated /\
  count_events is_execute (trace halves_updated)
    = (count_events is_execute (trace prepared_update_half) + 2)%nat /\
  rowsAffected_ (this halves_updated) = sum_Z [2 ^ 30; 2 ^ 30] /\
  rows_affected halves_updated = Ok NA_INTEGER halves_updated /\
  NA_INTEGER <> sum_Z [2 ^ 30; 2 ^ 30].
Proof. vm_compute. repeat split; discriminate. Qed.

(** Scenario B: the insert bound to three rows runs three times and
    affects three rows. *)
Lemma bind_batch_witness :
  exists w',
    bind [[7]; [8]; [9]] prepared_insert = Ok tt w' /\
    count_events is_execute (trace w') = 3%nat /\
    rows_affected w' = Ok 3 w'.
Proof.
  destruct (bind_batch [[7]; [8]; [9]] prepared_insert
              (mkStmt insert_t 1 None [] [] 0 EmptyString 0) [1; 1; 1] 3)
    as (w' & Hrun & _ & He & _ & _ & Hra & _ & _); try reflexivity.
  exists w'. split; [exact Hrun|]. split; [exact He|].
  apply Hra. vm_compute. discriminate.
Defined.

(** Scenario B, continued: fetching from the insert gives an empty table
    and the advice to execute instead. *)
Example insert_fetch_warns :
  option_map df_nrow (returned (fetch 1 (-1) inserted)) = Some 0 /\
  hd EvStmtInit (trace (after (fetch 1 (-1)) inserted))
    = EvWarning "Use dbExecute() instead of dbGetQuery() for statements, and also avoid dbFetch()" /\
  complete inserted = Ok true inserted.
Proof. vm_compute. repeat split. Qed.


(** Scenario A: [SELECT 1] is fetched right after [send_query]. *)
Example select_1_fetch :
  option_map df_cols (returned (fetch 2 10 selected)) = Some [[Some 1]] /\
  complete (after (fetch 2 10) selected)
    = Ok true (after (fetch 2 10) selected).
Proof. vm_compute. repeat split. Qed.

(** The first fetch after [SELECT 1] finds its row. *)
Lemma fetch_row_outcomes_witness :
  exists w',
    fetch_row selected = Ok true w' /\
    row_buffers (bindingOutput_ (this w')) = [1].
Proof.
  destruct (fetch_row_outcomes selected
              (mkStmt select_1 0 (Some [mkField "1" 3 63]) []
                      [FetchRow [1]] 0 EmptyString 0) eq_refl)
    as [(row & rs & w' & _ & Hres & Hrun & Hbuf & _)
       |[(msg & code & rs & w' & _ & Hres & _)
        |(w' & Hres & _)]].
  - exists w'. split; [exact Hrun|]. rewrite Hbuf.
    destruct Hres as [H|H]; simpl in H; [|discriminate].
    injection H as <- _. reflexivity.
  - simpl in Hres. discriminate.
  - destruct Hres as [H|H]; simpl in H; discriminate.
Defined.

(** Fetching from the prepared select before any bind. *)
Lemma fetch_precondition_witness :
  fetch 5 10 prepared_select =
  Throw (Stop "Query needs to be bound before fetching") prepared_select.
Proof. apply (fetch_precondition 5 10 prepared_select). left. reflexivity. Defined.

(** [fetch(0)] after [SELECT 1]. *)
Lemma fetch_zero_witness :
  exists out,
    fetch 5 0 selected = Ok out selected /\
    df_nrow out = 0 /\
    df_names out = ["1"%string].
Proof.
  destruct (fetch_zero 5 selected) as (out & Hrun & Hn & Hnm & _);
    try reflexivity.
  exists out. split; [exact Hrun|]. split; [exact Hn|]. exact Hnm.
Defined.

(** ** The further properties at work *)

(** The first object of a connection, and a client out of memory. *)
Lemma new_result_is_current_witness :
  (exists w : @world Z Z column_type,
     MariaResult_new 1 0 0 connection [] false = Ok tt w /\
     active w = Ok true w) /\
  (exists w : @world Z Z column_type,
     MariaResult_new 1 0 0 (mkConn srv2 (-1) None) [] false
       = Throw (Stop "Out of memory") w).
Proof.
  split.
  - destruct (new_result_is_current (MariaFieldType := column_type)
                1 0 0 connection [] false)
      as [Hok _].
    destruct Hok as (w & Hrun & _ & _ & Ha & _); [reflexivity|].
    exists w. split; assumption.
  - destruct (new_result_is_current (MariaFieldType := column_type)
                1 0 0 (mkConn srv2 (-1) None) [] false)
      as [_ Hoom].
    destruct Hoom as (w & Hrun & _); [reflexivity|].
    exists w. exact Hrun.
Defined.

(** Destroying the result of [SELECT 1], before and after closing it. *)
Lemma delete_releases_witness :
  exists w',
    MariaResult_delete selected = Ok tt w' /\
    count_events is_free_result (trace w') = 1%nat /\
    count_events is_stmt_close (trace w') = 1%nat /\
    exists w2,
      MariaResult_delete (after close selected) = Ok tt w2 /\
      trace w2 = EvAutocommit :: trace (after close selected).
Proof.
  destruct (delete_releases selected) as (w' & Hrun & _ & _ & _ & Hf & Hc & Hcl).
  exists w'. split; [exact Hrun|]. split; [exact Hf|]. split; [exact Hc|].
  apply Hcl. reflexivity.
Defined.

(** A misspelt statement. *)
Lemma send_query_rejected_witness :
  exists w',
    send_query type_of_field "SELEC 1" fresh
      = Throw (ProtocolError "You have an error in your SQL syntax" 1064) w' /\
    bound_ (this w') = false.
Proof.
  destruct (send_query_rejected type_of_field "SELEC 1" fresh stmt_fresh
              "You have an error in your SQL syntax" 1064)
    as (w' & Hrun & _ & _ & Hb & _); try reflexivity.
  exists w'. split; [exact Hrun|]. rewrite Hb. reflexivity.
Defined.

(** The parameterised select is prepared, not executed, not fetchable. *)
Lemma send_query_with_params_witness :
  exists w',
    send_query type_of_field select_upto fresh = Ok tt w' /\
    trace w' = EvPrepare select_upto :: trace fresh /\
    fetch 5 (-1) w'
      = Throw (Stop "Query needs to be bound before fetching") w'.
Proof.
  destruct (send_query_with_params type_of_field select_upto fresh stmt_fresh
              1 (Some [mkField "x" 3 63]))
    as (w' & Hrun & Htr & _ & _ & _ & _ & _ & _ & Hf); try reflexivity.
  - vm_compute. discriminate.
  - exists w'. split; [exact Hrun|]. split; [exact Htr|].
    apply Hf. reflexivity.
Defined.

(** Dropping a table that is not there. *)
Lemma send_query_execute_fails_witness :
  exists w',
    send_query type_of_field drop_u fresh2
      = Throw (ProtocolError "Unknown table" 1051) w' /\
    bound_ (this w') = false.
Proof.
  destruct (send_query_execute_fails type_of_field drop_u fresh2 stmt_fresh
              None "Unknown table" 1051 0)
    as (w' & Hrun & _ & _ & Hb & _); try reflexivity.
  exists w'. split; [exact Hrun|]. rewrite Hb. reflexivity.
Defined.

(** The one column of [SELECT 1]. *)
Lemma send_query_caches_metadata_witness :
  names_ (this selected) = ["1"%string] /\
  types_ (this selected) = [TInt] /\
  column_info type_label (this selected)
    = Some (mkColumnFrame ["1"%string] ["integer"%string]
              (NA_INTEGER, -1) "data.frame" ["name"%string; "type"%string]).
Proof.
  destruct (send_query_caches_metadata type_of_field type_label select_1
              fresh selected stmt_fresh 0 [mkField "1" 3 63])
    as (_ & _ & Hn & Ht & _ & Hci); try reflexivity.
  - vm_compute. discriminate.
  - split; [exact Hn|]. split; [exact Ht|]. exact Hci.
Defined.

(** Fetching from the insert after its three executions. *)
Lemma fetch_without_result_witness :
  exists w',
    fetch 1 10 inserted = Ok (df_create [] [] 0) w' /\
    this w' = this inserted.
Proof.
  destruct (fetch_without_result 1 10 inserted)
    as (w' & Hrun & Ht & _); try reflexivity.
  exists w'. split; [exact Hrun|exact Ht].
Defined.

(** Fetching from [SELECT 1] after it was closed. *)
Lemma fetch_after_close_witness :
  exists w2,
    fetch 1 (-1) (after close selected)
      = Ok (df_create [TInt] ["1"%string] 0) w2 /\
    trace w2 = trace (after close selected).
Proof.
  destruct (fetch_after_close 1 (-1) selected (after close selected))
    as (w2 & Hrun & _ & _ & Htr); try reflexivity.
  exists w2. split; [exact Hrun|exact Htr].
Defined.

(** The update of 2^31 rows reports "not available". *)
Lemma rows_affected_wraps_witness :
  rowsAffected_ (this mass_updated) = 2 ^ 31 /\
  rows_affected mass_updated = Ok NA_INTEGER mass_updated.
Proof.
  destruct (rows_affected_wraps mass_updated) as (_ & _ & Hna).
  - reflexivity.
  - vm_compute. split; [discriminate|reflexivity].
  - split; [reflexivity|]. apply Hna. reflexivity.
Defined.

(** Four rows to insert, the third a duplicate. *)
Lemma bind_batch_fails_witness :
  exists w',
    bind [[7]; [8]; [-1]; [9]] prepared_insert2
      = Throw (ProtocolError "Duplicate entry" 1062) w' /\
    count_events is_execute (trace w') = 3%nat /\
    conn_db (conn w') = 2 /\
    rows_affected w' = Ok NA_INTEGER w'.
Proof.
  destruct (bind_batch_fails [[7]; [8]] [[9]] [-1] prepared_insert2
              (mkStmt insert_t 1 None [] [] 0 EmptyString 0)
              [1; 1] 2 2 "Duplicate entry" 1062)
    as (w' & Hrun & _ & He & _ & Hd & _ & Hna); try reflexivity.
  exists w'. split; [exact Hrun|]. split; [exact He|]. split; [exact Hd|].
  apply Hna. reflexivity.
Defined.

(** The first step of the select bound to two rows, and the step that
    meets the lost connection. *)
Lemma step_outcomes_witness :
  (exists w', step bound_select = Ok true w' /\
              row_buffers (bindingOutput_ (this w')) = [2]) /\
  (exists w', step flaky_after_two
              = Throw (ProtocolError
                         "Lost connection to server during query" 2013) w').
Proof.
  split.
  - destruct (step_outcomes bound_select) as [Hrows _].
    destruct (Hrows [[2]; [1]; [3]; [2]; [1]] eq_refl)
      as (w' & _ & Hrun & _ & Hbuf & _).
    exists w'. split; assumption.
  - destruct (step_outcomes flaky_after_two) as [_ Herr].
    destruct (Herr (mkStmt select_flaky 0 (Some [mkField "x" 3 63]) []
                      [FetchError "Lost connection to server during query" 2013;
                       FetchRow [3]] 0 EmptyString 0)
                   "Lost connection to server during query"%string 2013
                   [FetchRow [3]] eq_refl eq_refl eq_refl)
      as (w' & Hrun & _).
    exists w'. exact Hrun.
Defined.

(** Two rows, then all the others. *)
Lemma fetch_in_chunks_witness :
  exists out1 out2 w1 w2,
    fetch 6 2 bound_select = Ok out1 w1 /\
    fetch 6 (-1) w1 = Ok out2 w2 /\
    df_nrow out1 = 2 /\ df_nrow out2 = 3 /\
    df_cell out2 0 0 = Some (Some 3).
Proof.
  destruct (fetch_in_chunks 6 2 (-1) bound_select
              [[2]; [1]; [3]; [2]; [1]])
    as (k1 & k2 & out1 & out2 & w1 & w2 & Hk1 & Hk2 & Hr1 & Hr2 & Hn1 & Hn2
        & _ & _ & _ & Hc2); try reflexivity.
  - vm_compute. split; [discriminate|reflexivity].
  - vm_compute. split; discriminate.
  - vm_compute. split; discriminate.
  - vm_compute. lia.
  - simpl in Hk1, Hk2. subst k1 k2.
    exists out1, out2, w1, w2.
    split; [exact Hr1|]. split; [exact Hr2|].
    split; [exact Hn1|]. split; [exact Hn2|].
    apply (Hc2 0%nat 0%nat); vm_compute; lia.
Defined.

(** Everything at once, then nothing more. *)
Lemma fetch_all_completes_witness :
  exists out w',
    fetch 6 (-1) bound_select = Ok out w' /\
    df_nrow out = 5 /\
    complete w' = Ok true w' /\
    rows_fetched w' = Ok 5 w' /\
    exists out2 w2, fetch 1 10 w' = Ok out2 w2 /\ df_nrow out2 = 0.
Proof.
  destruct (fetch_all_completes 6 (-1) bound_select
              [[2]; [1]; [3]; [2]; [1]])
    as (out & w' & Hrun & Hn & Hc & Hrf & Hnext); try reflexivity.
  - vm_compute. split; [discriminate|reflexivity].
  - vm_compute. split; [discriminate|reflexivity].
  - vm_compute. lia.
  - exists out, w'. split; [exact Hrun|]. split; [exact Hn|].
    split; [exact Hc|]. split.
    + apply Hrf. vm_compute. discriminate.
    + destruct (Hnext 1%nat 10) as (out2 & w2 & Hr2 & Hn2 & _).
      * lia.
      * vm_compute. split; discriminate.
      * exists out2, w2. split; assumption.
Defined.

(** The connection is lost after two rows. *)
Lemma fetch_fetch_error_witness :
  exists w',
    fetch 3 (-1) selected_flaky
      = Throw (ProtocolError "Lost connection to server during query" 2013) w' /\
    rows_fetched w' = Ok 2 w'.
Proof.
  destruct (fetch_fetch_error 3 (-1) selected_flaky
              (mkStmt select_flaky 0 (Some [mkField "x" 3 63]) []
                 [FetchRow [1]; FetchTruncated [2];
                  FetchError "Lost connection to server during query" 2013;
                  FetchRow [3]] 0 EmptyString 0)
              [[1]; [2]] "Lost connection to server during query" 2013)
    as (w' & Hrun & Hrf & Hb & _); try reflexivity.
  - vm_compute. split; [discriminate|reflexivity].
  - vm_compute. split; discriminate.
  - intros H. vm_compute in H. contradiction H. reflexivity.
  - vm_compute. lia.
  - exists w'. split; [exact Hrun|].
    unfold rows_fetched, mbind, get_this, ret. rewrite Hb, Hrf. reflexivity.
Defined.

(** The user interrupts a fetch of 1200 rows. *)
Lemma fetch_interrupted_witness :
  exists w',
    fetch 1200 (-1) interrupted_1200 = Throw Interrupted w' /\
    rows_pending w' = Some (rows_down 200) /\
    rowsFetched_ (this w') = 1000.
Proof.
  destruct (fetch_interrupted 1200 (-1) interrupted_1200 (rows_down 1200))
    as (w' & Hrun & Hp & Hrf & _); try reflexivity.
  - vm_compute. split; [discriminate|reflexivity].
  - vm_compute. split; discriminate.
  - left. reflexivity.
  - vm_compute. lia.
  - vm_compute. lia.
  - exists w'. split; [exact Hrun|]. split; [exact Hp|]. exact Hrf.
Defined.

End Scenarios.
